(** * Expiration reconciliation of [pull_optionm_api_data.py]

    A shallow embedding of [get_expiration_dates] and
    [filter_index_implied_dividend_yield] and the properties of the two
    that the specification states.

    Conventions of the embedding.
    - A date (a [pd.Timestamp] at midnight, a [datetime.date]) is its day
      number: the number of days since 1970-01-01, an unbounded [Z].  The
      range of [pd.Timestamp] is left out of [shift_back] and is part of
      [shift_back_io]; the two agree on every list that is returned
      ([get_expiration_dates_io_Returns]).
    - A DataFrame is the list of its rows in positional order.  A row has
      an observation date and an expiration, both dates; missing values
      are not modelled.
    - The market calendar ([pandas_market_calendars]) is not part of the
      repository: it is a parameter [is_session], the predicate "the
      market is open on this day".
    - A [while] loop is run with fuel: the number of times its condition
      may be evaluated.  [OutOfFuel] means "still running".
    - The [print] of the while loop is left out of [shift_back] and is
      part of [shift_back_io], which also returns the dates printed. *)

From stdpp Require Import gmap list sorting strings.
From Stdlib Require Import ZArith Lia.

Open Scope Z_scope.

(** ** Outcomes of a Python call *)

Inductive outcome (A : Type) : Type :=
  | Returns (a : A)
  | Raises (exn : string)
  | OutOfFuel.
Arguments Returns {A} a.
Arguments Raises {A} exn.
Arguments OutOfFuel {A}.

Definition bind {A B} (o : outcome A) (k : A → outcome B) : outcome B :=
  match o with
  | Returns a => k a
  | Raises e => Raises e
  | OutOfFuel => OutOfFuel
  end.

Notation "x ←' o ; k" := (bind o (λ x, k))
  (at level 20, o at level 100, k at level 200, only parsing).

(** ** The proleptic Gregorian calendar

    Day numbers are split into 400-year eras that start on March 1st:
    [yoe_of] is the year within the era of a day of the era,
    [year_start] the first day of such a year, and [month_day_of_doy] the
    month and the day of the month of a day of a March-based year. *)

Definition yoe_of (doe : Z) : Z :=
  (doe - doe / 1460 + doe / 36524 - doe / 146096) / 365.

Definition year_start (yoe : Z) : Z := 365 * yoe + yoe / 4 - yoe / 100.

Definition month_day_of_doy (doy : Z) : Z * Z :=
  let mp := (5 * doy + 2) / 153 in
  (if mp <? 10 then mp + 3 else mp - 9, doy - (153 * mp + 2) / 5 + 1).

Definition era_of (z : Z) : Z := (z + 719468) / 146097.
Definition doe_of (z : Z) : Z := (z + 719468) mod 146097.

(** [civil_from_days z] is the year, the month and the day of the month
    of day number [z]. *)
Definition civil_from_days (z : Z) : Z * Z * Z :=
  let yoe := yoe_of (doe_of z) in
  let '(m, d) := month_day_of_doy (doe_of z - year_start yoe) in
  (yoe + 400 * era_of z + (if m <=? 2 then 1 else 0), m, d).

Definition year_of (z : Z) : Z := (civil_from_days z).1.1.
Definition month_of (z : Z) : Z := (civil_from_days z).1.2.
Definition day_of (z : Z) : Z := (civil_from_days z).2.

(** [ymd y m d] is the day number of the date written [y-m-d]. *)
Definition ymd (y m d : Z) : Z :=
  let y' := if m <=? 2 then y - 1 else y in
  let era := y' / 400 in
  let yoe := y' - era * 400 in
  let doy := (153 * (if 2 <? m then m - 3 else m + 9) + 2) / 5 + d - 1 in
  let doe := yoe * 365 + yoe / 4 - yoe / 100 + doy in
  era * 146097 + doe - 719468.

(** [Timestamp.weekday()]: Monday is 0, Friday is 4, Sunday is 6.
    Day 0, 1970-01-01, is a Thursday. *)
Definition weekday (z : Z) : Z := (z + 3) mod 7.

(** ** [pd.date_range(start, end, freq="WOM-3FRI")]

    The offset [WOM-3FRI] is pandas' [WeekOfMonth(week=2, weekday=4)],
    the third Friday of a month: the Friday (weekday 4) in the third
    week of days, [(day - 1) // 7 == 2], the days 15 to 21.
    [date_range] returns, in increasing order, the dates of the
    inclusive range that are on the offset. *)

Definition is_third_friday (z : Z) : bool :=
  (weekday z =? 4) && ((day_of z - 1) / 7 =? 2).

Definition days_between (start_date end_date : Z) : list Z :=
  seqZ start_date (end_date - start_date + 1).

Definition date_range (start_date end_date : Z) : list Z :=
  filter (λ d, is_third_friday d) (days_between start_date end_date).

(** The third Fridays of the range that fall in one of the months asked
    for: [all_target_dates[all_target_dates.month.isin(expiration_months)]]. *)
Definition expiration_target_dates (start_date end_date : Z)
    (expiration_months : list Z) : list Z :=
  let all_target_dates := date_range start_date end_date in
  filter (λ d, month_of d ∈ expiration_months) all_target_dates.

(** ** The while loop of [get_expiration_dates]

    [while current_date not in market_open_set: current_date -= 1 day].
    Here the dates are unbounded and nothing is printed, which is exact
    for the dates the loop returns; [shift_back_io] below adds the line
    printed at each step and the range of Timestamp, where the loop
    raises. *)

Fixpoint shift_back (fuel : nat) (market_open_set : gset Z)
    (current_date : Z) : outcome Z :=
  match fuel with
  | O => OutOfFuel
  | S fuel' =>
      if decide (current_date ∈ market_open_set) then Returns current_date
      else shift_back fuel' market_open_set (current_date - 1)
  end.

(** The [for i in range(len(expiration_target_dates))] loop: it reads
    position [i], runs the while loop and writes position [i]. *)
Fixpoint adjust_each (fuel : nat) (market_open_set : gset Z)
    (indices : list nat) (expiration_target_dates : list Z)
    : outcome (list Z) :=
  match indices with
  | [] => Returns expiration_target_dates
  | i :: rest =>
      match expiration_target_dates !! i with
      | None => Raises "IndexError"
      | Some current_date =>
          current_date ←' shift_back fuel market_open_set current_date;
          adjust_each fuel market_open_set rest
            (<[i := current_date]> expiration_target_dates)
      end
  end.

(** The effect of the for loop, position by position: used to reason
    about [adjust_each], see [adjust_each_shift_all]. *)
Fixpoint shift_all (fuel : nat) (market_open_set : gset Z)
    (dates : list Z) : outcome (list Z) :=
  match dates with
  | [] => Returns []
  | current_date :: dates' =>
      current_date ←' shift_back fuel market_open_set current_date;
      dates' ←' shift_all fuel market_open_set dates';
      Returns (current_date :: dates')
  end.

(** ** Rows and the pandas operations of the reconciler *)

(** A row of the vendor table: the observation date, the expiration and
    the columns the reconciler never reads (secid, cusip, ticker, sic,
    index_flag, exchange_d, class, issue_type, industry_group, rate). *)
Record Row (Other : Type) : Type := mkRow {
  date : Z;
  expiration : Z;
  other : Other
}.
Arguments mkRow {Other} date expiration other.
Arguments date {Other} r.
Arguments expiration {Other} r.
Arguments other {Other} r.

(** [dict(pairs)]: a later pair overrides an earlier one with its key. *)
Definition dict_of_pairs (pairs : list (Z * Z)) : gmap Z Z :=
  foldl (λ m kv, <[kv.1 := kv.2]> m) ∅ pairs.

(** [Series.replace(d)] on one value: every value is looked up once in
    the dict, a value that is not a key stays. *)
Definition replace_value (d : gmap Z Z) (v : Z) : Z := default v (d !! v).

Definition replace_expiration {Other} (d : gmap Z Z) (r : Row Other)
    : Row Other :=
  mkRow (date r) (replace_value d (expiration r)) (other r).

(** [df.groupby("date").head(n)]: the rows whose count of earlier rows
    with the same date is below [n], in the order of [df].
    [seen d] is that count for the rows already passed. *)
Fixpoint head_from {Other} (n : nat) (seen : Z → nat)
    (df : list (Row Other)) : list (Row Other) :=
  match df with
  | [] => []
  | r :: df' =>
      let seen' := λ d, if decide (d = date r) then S (seen d) else seen d in
      if decide (seen (date r) < n)%nat
      then r :: head_from n seen' df'
      else head_from n seen' df'
  end.

Definition groupby_head {Other} (n : nat) (df : list (Row Other))
    : list (Row Other) :=
  head_from n (λ _, 0%nat) df.

(** The body of [filter_index_implied_dividend_yield] after the call of
    [get_expiration_dates]. *)
Definition potential_expiration_dates (all_third_fridays : list Z)
    : list (Z * Z) :=
  let all_third_fridays_tom := (λ d, d + 1) <$> all_third_fridays in
  zip all_third_fridays_tom all_third_fridays.

Definition replace_column {Other} (all_third_fridays : list Z)
    (df_ : list (Row Other)) : list (Row Other) :=
  replace_expiration
    (dict_of_pairs (potential_expiration_dates all_third_fridays)) <$> df_.

Definition isin_column {Other} (all_third_fridays : list Z)
    (df_ : list (Row Other)) : list (Row Other) :=
  filter (λ r, expiration r ∈ all_third_fridays) df_.

Definition reconcile_with {Other} (all_third_fridays : list Z)
    (df : list (Row Other)) : list (Row Other) :=
  let df_ := replace_column all_third_fridays df in
  let filtered_df := isin_column all_third_fridays df_ in
  groupby_head 2 filtered_df.

(** ** The store of DataFrame objects

    An object is its position in the store; a new object is appended. *)
Definition new_object {Other} (h : list (list (Row Other)))
    (df : list (Row Other)) : nat * list (list (Row Other)) :=
  (length h, h ++ [df]).

(** The table an object holds.  (A reference to no object does not
    arise in Python; it reads as the empty table.) *)
Definition contents {Other} (h : list (list (Row Other))) (obj : nat)
    : list (Row Other) :=
  default [] (h !! obj).

Section Model.
(** [is_session d]: the calendar [Financial_Markets_US] is open on day
    [d]. *)
Context (is_session : Z → bool) {Other : Type}.

(** [ushol.valid_days(start_date, end_date)]: the sessions of the
    inclusive range. *)
Definition valid_days (start_date end_date : Z) : list Z :=
  filter (λ d, is_session d) (days_between start_date end_date).

Definition market_open_set (start_date end_date : Z) : gset Z :=
  list_to_set (valid_days start_date end_date).

Definition get_expiration_dates (fuel : nat) (start_date end_date : Z)
    (expiration_months : list Z) : outcome (list Z) :=
  let expiration_target_dates :=
    expiration_target_dates start_date end_date expiration_months in
  adjust_each fuel (market_open_set start_date end_date)
    (seq 0 (length expiration_target_dates)) expiration_target_dates.

Definition filter_index_implied_dividend_yield (fuel : nat)
    (df : list (Row Other)) (start_date end_date : Z)
    : outcome (list (Row Other)) :=
  all_third_fridays ←'
    get_expiration_dates fuel start_date end_date [3; 6; 9; 12];
  Returns (reconcile_with all_third_fridays df).

(** The same function on the store: [df] is an object, [df.copy()],
    the boolean indexing and [head] make new objects, and the
    assignment to [df_["expiration"]] updates the object [df_]. *)
Definition filter_index_implied_dividend_yield_store (fuel : nat)
    (df : nat) (start_date end_date : Z) (h : list (list (Row Other)))
    : outcome (nat * list (list (Row Other))) :=
  let '(df_, h) := new_object h (contents h df) in
  all_third_fridays ←'
    get_expiration_dates fuel start_date end_date [3; 6; 9; 12];
  let h := <[df_ := replace_column all_third_fridays (contents h df_)]> h in
  let '(filtered_df, h) :=
    new_object h (isin_column all_third_fridays (contents h df_)) in
  let '(filtered_df, h) :=
    new_object h (groupby_head 2 (contents h filtered_df)) in
  Returns (filtered_df, h).
End Model.

(** ** The generator and the reconciler with their effects

    The while loop again, with what [shift_back] leaves out: the line
    printed before every step back (modelled by the date it shows), and
    the range of [pd.Timestamp].  The earliest midnight a Timestamp
    holds is 1677-09-22; [current_date -= pd.Timedelta(days=1)] raises
    [OutOfBoundsDatetime] when the result would be earlier.  The
    functions return their outcome and the dates printed, in order. *)

Definition timestamp_min : Z := ymd 1677 9 22.

Fixpoint shift_back_io (fuel : nat) (market_open_set : gset Z)
    (current_date : Z) : outcome Z * list Z :=
  match fuel with
  | O => (OutOfFuel, [])
  | S fuel' =>
      if decide (current_date ∈ market_open_set)
      then (Returns current_date, [])
      else if decide (current_date - 1 < timestamp_min)
      then (Raises "OutOfBoundsDatetime", [current_date])
      else
        let '(o, printed) :=
          shift_back_io fuel' market_open_set (current_date - 1) in
        (o, current_date :: printed)
  end.

Fixpoint adjust_each_io (fuel : nat) (market_open_set : gset Z)
    (indices : list nat) (expiration_target_dates : list Z)
    : outcome (list Z) * list Z :=
  match indices with
  | [] => (Returns expiration_target_dates, [])
  | i :: rest =>
      match expiration_target_dates !! i with
      | None => (Raises "IndexError", [])
      | Some current_date =>
          let '(o, printed) :=
            shift_back_io fuel market_open_set current_date in
          match o with
          | Returns current_date =>
              let '(o', printed') :=
                adjust_each_io fuel market_open_set rest
                  (<[i := current_date]> expiration_target_dates) in
              (o', printed ++ printed')
          | Raises exn => (Raises exn, printed)
          | OutOfFuel => (OutOfFuel, printed)
          end
      end
  end.

(** The effect of that for loop, position by position: used to reason
    about [adjust_each_io], see [adjust_each_io_shift_all_io]. *)
Fixpoint shift_all_io (fuel : nat) (market_open_set : gset Z)
    (dates : list Z) : outcome (list Z) * list Z :=
  match dates with
  | [] => (Returns [], [])
  | current_date :: dates' =>
      let '(o, printed) :=
        shift_back_io fuel market_open_set current_date in
      match o with
      | Returns current_date =>
          let '(o', printed') := shift_all_io fuel market_open_set dates' in
          (dates' ←' o'; Returns (current_date :: dates'),
           printed ++ printed')
      | Raises exn => (Raises exn, printed)
      | OutOfFuel => (OutOfFuel, printed)
      end
  end.

(** What a call can see and change besides its arguments: the lines
    printed so far and the DataFrame objects.  (The module-level names
    START_DATE and END_DATE are read once, at import, as the default
    values of the arguments; a call that passes the range reads none of
    them.) *)
Record World (Other : Type) : Type := mkWorld {
  stdout : list Z;
  objects : list (list (Row Other))
}.
Arguments mkWorld {Other} stdout objects.
Arguments stdout {Other} w.
Arguments objects {Other} w.

Section ModelWithEffects.
Context (is_session : Z → bool) {Other : Type}.

Definition get_expiration_dates_io (fuel : nat) (start_date end_date : Z)
    (expiration_months : list Z) : outcome (list Z) * list Z :=
  let expiration_target_dates :=
    expiration_target_dates start_date end_date expiration_months in
  adjust_each_io fuel (market_open_set is_session start_date end_date)
    (seq 0 (length expiration_target_dates)) expiration_target_dates.

(** [filter_index_implied_dividend_yield] on the world: the copy is made
    before the generator is called, so it is there also when the
    generator raises. *)
Definition filter_index_implied_dividend_yield_io (fuel : nat) (df : nat)
    (start_date end_date : Z) (w : World Other)
    : outcome nat * World Other :=
  let '(df_, h) := new_object (objects w) (contents (objects w) df) in
  let '(o, printed) :=
    get_expiration_dates_io fuel start_date end_date [3; 6; 9; 12] in
  match o with
  | Returns all_third_fridays =>
      let h :=
        <[df_ := replace_column all_third_fridays (contents h df_)]> h in
      let '(filtered_df, h) :=
        new_object h (isin_column all_third_fridays (contents h df_)) in
      let '(filtered_df, h) :=
        new_object h (groupby_head 2 (contents h filtered_df)) in
      (Returns filtered_df, mkWorld (stdout w ++ printed) h)
  | Raises exn => (Raises exn, mkWorld (stdout w ++ printed) h)
  | OutOfFuel => (OutOfFuel, mkWorld (stdout w ++ printed) h)
  end.
End ModelWithEffects.

(** ** The assumption on the calendar

    Every third Friday has a session on it or on one of the four days
    before it: the market is never closed for five days in a row that end
    on a third Friday. *)
Definition sessions_near_third_fridays (is_session : Z → bool) : Prop :=
  ∀ F, is_third_friday F = true →
       ∃ s, F - 4 ≤ s ≤ F ∧ is_session s = true.

(** ** A sample calendar

    Modelled from the spec: the trading calendar of the US market is not
    part of the repository; the spec describes it as the valid trading
    dates, holidays excluded, and names Good Friday as a holiday that
    displaces an expiration.  The sample has a session on every Monday
    to Friday that is not one of the US market holidays of 2008 and 2020
    listed here (2008-03-21 and 2020-04-10 are the Good Fridays); it
    serves the worked examples of those two years. *)
Definition sample_holidays : list Z :=
  [ ymd 2008 1 1; ymd 2008 1 21; ymd 2008 2 18; ymd 2008 3 21;
    ymd 2008 5 26; ymd 2008 7 4; ymd 2008 9 1; ymd 2008 10 13;
    ymd 2008 11 11; ymd 2008 11 27; ymd 2008 12 25;
    ymd 2020 1 1; ymd 2020 1 20; ymd 2020 2 17; ymd 2020 4 10;
    ymd 2020 5 25; ymd 2020 7 3; ymd 2020 9 7; ymd 2020 10 12;
    ymd 2020 11 11; ymd 2020 11 26; ymd 2020 12 25 ].

Definition sample_session (d : Z) : bool :=
  (weekday d <? 5) && negb (bool_decide (d ∈ sample_holidays)).

(** Sample inputs: the year 2020, the range that starts on Good Friday
    2008, and a small table. *)
Definition start_2020 : Z := ymd 2020 1 1.
Definition end_2020 : Z := ymd 2020 12 31.
Definition canon_2020 : list Z :=
  [ymd 2020 3 20; ymd 2020 6 19; ymd 2020 9 18; ymd 2020 12 18].

Definition start_2008 : Z := ymd 2008 3 21.
Definition end_2008 : Z := ymd 2008 12 31.

Definition sample_df : list (Row string) :=
  [ mkRow (ymd 2020 3 2) (ymd 2020 3 21) "a";
    mkRow (ymd 2020 3 2) (ymd 2020 4 17) "b";
    mkRow (ymd 2020 3 2) (ymd 2020 6 19) "c";
    mkRow (ymd 2020 3 2) (ymd 2020 9 18) "d";
    mkRow (ymd 2020 3 3) (ymd 2020 3 20) "e" ].

Definition sample_out : list (Row string) :=
  [ mkRow (ymd 2020 3 2) (ymd 2020 3 20) "a";
    mkRow (ymd 2020 3 2) (ymd 2020 6 19) "c";
    mkRow (ymd 2020 3 3) (ymd 2020 3 20) "e" ].

(** The store after a run on the store that holds [sample_df] only. *)
Definition store_after : list (list (Row string)) :=
  [ sample_df; replace_column canon_2020 sample_df;
    isin_column canon_2020 (replace_column canon_2020 sample_df);
    sample_out ].

(** Two rows of one date, the later maturity first. *)
Definition unsorted_df : list (Row string) :=
  [ mkRow (ymd 2020 3 2) (ymd 2020 6 19) "c";
    mkRow (ymd 2020 3 2) (ymd 2020 3 20) "a" ].

(** * Properties *)

(** ** Sanity checks of the calendar *)

Example civil_2020_03_20 :
  civil_from_days (ymd 2020 3 20) = (2020, 3, 20) ∧ weekday (ymd 2020 3 20) = 4.
Proof. vm_compute. done. Qed.

Example civil_epoch : ymd 1970 1 1 = 0 ∧ civil_from_days 0 = (1970, 1, 1).
Proof. vm_compute. done. Qed.

Example civil_2008_02_29 :
  civil_from_days (ymd 2008 3 1 - 1) = (2008, 2, 29) ∧
  civil_from_days (ymd 1900 3 1 - 1) = (1900, 2, 28) ∧
  civil_from_days (ymd 2000 3 1 - 1) = (2000, 2, 29) ∧
  civil_from_days (-1) = (1969, 12, 31).
Proof. vm_compute. done. Qed.

Example date_range_2020 :
  date_range (ymd 2020 1 1) (ymd 2020 12 31) =
  [ ymd 2020 1 17; ymd 2020 2 21; ymd 2020 3 20; ymd 2020 4 17;
    ymd 2020 5 15; ymd 2020 6 19; ymd 2020 7 17; ymd 2020 8 21;
    ymd 2020 9 18; ymd 2020 10 16; ymd 2020 11 20; ymd 2020 12 18 ].
Proof. vm_compute. done. Qed.

Example good_friday_2008 :
  get_expiration_dates sample_session 5 (ymd 2008 1 1) (ymd 2008 12 31)
    [3; 6; 9; 12]
  = Returns [ymd 2008 3 20; ymd 2008 6 20; ymd 2008 9 19; ymd 2008 12 19].
Proof. vm_compute. done. Qed.

Example groupby_head_2 :
  groupby_head 2 [mkRow 1 10 "a"; mkRow 2 10 "b"; mkRow 1 11 "c";
                  mkRow 1 12 "d"; mkRow 2 13 "e"; mkRow 2 14 "f"]
  = [mkRow 1 10 "a"; mkRow 2 10 "b"; mkRow 1 11 "c"; mkRow 2 13 "e"].
Proof. vm_compute. done. Qed.

Example dict_later_pair_wins :
  dict_of_pairs [(1, 10); (2, 20); (1, 30)] !! 1 = Some 30.
Proof. vm_compute. done. Qed.

(** ** Calendar lemmas *)

Lemma yoe_of_range doe :
  0 ≤ doe < 146097 →
  0 ≤ yoe_of doe < 400 ∧ year_start (yoe_of doe) ≤ doe ∧
  (doe < year_start (yoe_of doe + 1) ∨ yoe_of doe = 399).
Proof.
  intros H. unfold yoe_of, year_start.
  Z.div_mod_to_equations. lia.
Qed.

Lemma doy_range doe :
  0 ≤ doe < 146097 → 0 ≤ doe - year_start (yoe_of doe) ≤ 365.
Proof.
  intros H. destruct (yoe_of_range doe H) as (Hy & Hlo & Hhi).
  split; [lia|]. revert Hlo Hhi. unfold year_start.
  generalize (yoe_of doe) Hy. intros y Hy'.
  Z.div_mod_to_equations. lia.
Qed.

(** Within a year of an era, the day before a day that is not the first
    of its year is in the same year. *)
Lemma yoe_of_pred doe :
  0 < doe < 146097 → doe - year_start (yoe_of doe) ≠ 0 →
  yoe_of (doe - 1) = yoe_of doe.
Proof.
  intros H Hne.
  destruct (yoe_of_range doe) as (Hy & Hlo & Hhi); [lia|].
  destruct (yoe_of_range (doe - 1)) as (Hy' & Hlo' & Hhi'); [lia|].
  revert Hne Hlo Hhi Hlo' Hhi'. unfold year_start.
  generalize (yoe_of doe) (yoe_of (doe - 1)) Hy Hy'. intros y y' ? ?.
  Z.div_mod_to_equations. lia.
Qed.

Lemma month_day_of_doy_range doy :
  0 ≤ doy ≤ 365 →
  1 ≤ (month_day_of_doy doy).1 ≤ 12 ∧ 1 ≤ (month_day_of_doy doy).2 ≤ 31.
Proof.
  intros H. unfold month_day_of_doy. simpl.
  destruct (Z.ltb_spec ((5 * doy + 2) / 153) 10);
    Z.div_mod_to_equations; lia.
Qed.

Lemma month_day_of_doy_first : (month_day_of_doy 0).2 = 1.
Proof. reflexivity. Qed.

Lemma month_day_of_doy_pred doy :
  0 < doy ≤ 365 → (month_day_of_doy doy).2 ≠ 1 →
  month_day_of_doy (doy - 1) =
  ((month_day_of_doy doy).1, (month_day_of_doy doy).2 - 1).
Proof.
  intros H. unfold month_day_of_doy. simpl. intros Hne.
  assert ((5 * (doy - 1) + 2) / 153 = (5 * doy + 2) / 153) as ->.
  { revert Hne. Z.div_mod_to_equations. lia. }
  f_equal. lia.
Qed.

Lemma doe_of_range z : 0 ≤ doe_of z < 146097.
Proof. unfold doe_of. apply Z.mod_pos_bound. lia. Qed.

Lemma doe_era_pred z :
  doe_of z ≠ 0 → doe_of (z - 1) = doe_of z - 1 ∧ era_of (z - 1) = era_of z.
Proof. unfold doe_of, era_of. intros H. Z.div_mod_to_equations. lia. Qed.

Lemma day_of_pos z : 1 ≤ day_of z ≤ 31.
Proof.
  unfold day_of, civil_from_days.
  pose proof (doy_range _ (doe_of_range z)) as Hd.
  pose proof (month_day_of_doy_range _ Hd) as [_ Hr].
  destruct (month_day_of_doy _) as [m d]. exact Hr.
Qed.

Lemma month_of_range z : 1 ≤ month_of z ≤ 12.
Proof.
  unfold month_of, civil_from_days.
  pose proof (doy_range _ (doe_of_range z)) as Hd.
  pose proof (month_day_of_doy_range _ Hd) as [Hr _].
  destruct (month_day_of_doy _) as [m d]. exact Hr.
Qed.

(** The day before a day that is not the first of its month is in the
    same month of the same year. *)
Lemma civil_pred z :
  day_of z ≠ 1 →
  civil_from_days (z - 1) = (year_of z, month_of z, day_of z - 1).
Proof.
  unfold year_of, month_of, day_of, civil_from_days.
  pose proof (doe_of_range z) as Hdoe.
  pose proof (doy_range _ Hdoe) as Hdoy.
  destruct (month_day_of_doy (doe_of z - year_start (yoe_of (doe_of z))))
    as [m d] eqn:Hmd. cbn [fst snd]. intros Hd.
  assert (doe_of z - year_start (yoe_of (doe_of z)) ≠ 0) as Hne.
  { intros E. rewrite E in Hmd. vm_compute in Hmd. congruence. }
  assert (doe_of z ≠ 0) as Hne0.
  { intros E. apply Hne. rewrite E. reflexivity. }
  destruct (doe_era_pred z Hne0) as [-> ->].
  rewrite yoe_of_pred by lia.
  replace (doe_of z - 1 - year_start (yoe_of (doe_of z)))
    with (doe_of z - year_start (yoe_of (doe_of z)) - 1) by lia.
  rewrite month_day_of_doy_pred; rewrite ?Hmd; cbn [fst snd]; [done|lia|done].
Qed.

Lemma civil_back (k : nat) z :
  Z.of_nat k < day_of z →
  civil_from_days (z - Z.of_nat k) =
  (year_of z, month_of z, day_of z - Z.of_nat k).
Proof.
  induction k as [|k IH]; intros Hk.
  - rewrite Z.sub_0_r, Z.sub_0_r. unfold year_of, month_of, day_of.
    by destruct (civil_from_days z) as [[??]?].
  - assert (civil_from_days (z - Z.of_nat k) =
            (year_of z, month_of z, day_of z - Z.of_nat k)) as Hk' by (apply IH; lia).
    assert (year_of (z - Z.of_nat k) = year_of z ∧
            month_of (z - Z.of_nat k) = month_of z ∧
            day_of (z - Z.of_nat k) = day_of z - Z.of_nat k) as (Hy & Hm & Hd).
    { unfold year_of at 1, month_of at 1, day_of at 1. by rewrite Hk'. }
    replace (z - Z.of_nat (S k)) with (z - Z.of_nat k - 1) by lia.
    rewrite civil_pred by lia. rewrite Hy, Hm, Hd. f_equal. lia.
Qed.

Lemma month_of_back z d :
  d ≤ z → z - d < day_of z → month_of d = month_of z ∧ year_of d = year_of z.
Proof.
  intros H1 H2. pose proof (civil_back (Z.to_nat (z - d)) z) as H.
  rewrite Z2Nat.id in H by lia. replace (z - (z - d)) with d in H by lia.
  unfold month_of at 1, year_of at 1. rewrite H by lia. done.
Qed.

(** ** Third Fridays *)

Lemma is_third_friday_spec z :
  is_third_friday z = true ↔ weekday z = 4 ∧ 15 ≤ day_of z ≤ 21.
Proof.
  unfold is_third_friday. rewrite andb_true_iff, !Z.eqb_eq.
  split; intros [H1 H2]; (split; [done|]);
    revert H2; Z.div_mod_to_equations; lia.
Qed.

Lemma elem_of_days_between d start_date end_date :
  d ∈ days_between start_date end_date ↔ start_date ≤ d ≤ end_date.
Proof. unfold days_between. rewrite elem_of_seqZ. lia. Qed.

Lemma elem_of_date_range d start_date end_date :
  d ∈ date_range start_date end_date ↔
  is_third_friday d = true ∧ start_date ≤ d ≤ end_date.
Proof.
  unfold date_range. rewrite list_elem_of_filter, elem_of_days_between.
  by rewrite Is_true_true.
Qed.

(** Two different Fridays are at least a week apart. *)
Lemma weekday_apart a b : weekday a = weekday b → a ≠ b → 7 ≤ Z.abs (a - b).
Proof. unfold weekday. intros H Hne. Z.div_mod_to_equations. lia. Qed.

(** ** The while loop *)

Lemma shift_back_Returns fuel (S : gset Z) cur d :
  shift_back fuel S cur = Returns d →
  d ∈ S ∧ d ≤ cur ∧ (∀ x, d < x ≤ cur → x ∉ S) ∧ cur - d < Z.of_nat fuel.
Proof.
  revert cur; induction fuel as [|fuel IH]; intros cur; simpl; [done|].
  case_decide as Hin.
  - intros [= <-]. repeat split; [done|lia| |lia]. intros x Hx. lia.
  - intros H. apply IH in H as (H1 & H2 & H3 & H4).
    repeat split; [done|lia| |lia].
    intros x Hx. destruct (decide (x = cur)) as [->|]; [done|].
    apply H3. lia.
Qed.

Lemma shift_back_not_Raises fuel (S : gset Z) cur e :
  shift_back fuel S cur ≠ Raises e.
Proof.
  revert cur; induction fuel as [|fuel IH]; intros cur; simpl; [done|].
  case_decide; [done|apply IH].
Qed.

(** With enough fuel the loop returns the last member of the set on or
    before the date it starts from. *)
Lemma shift_back_enough fuel (S : gset Z) cur d :
  d ∈ S → d ≤ cur → (∀ x, d < x ≤ cur → x ∉ S) → cur - d < Z.of_nat fuel →
  shift_back fuel S cur = Returns d.
Proof.
  revert cur; induction fuel as [|fuel IH]; intros cur Hin Hle Hgap Hfuel;
    simpl; [lia|].
  case_decide as Hc.
  - destruct (decide (d = cur)) as [->|]; [done|].
    exfalso. apply (Hgap cur); [lia|done].
  - apply IH; [done| | |].
    + destruct (decide (d = cur)) as [->|]; [done|lia].
    + intros x Hx. apply Hgap. lia.
    + destruct (decide (d = cur)) as [->|]; [done|lia].
Qed.

(** With no member of the set among the [fuel] days that end at the
    start, the loop is still running after [fuel] iterations. *)
Lemma shift_back_short fuel (S : gset Z) cur :
  (∀ x, x ∈ S → cur - Z.of_nat fuel < x ≤ cur → False) →
  shift_back fuel S cur = OutOfFuel.
Proof.
  revert cur; induction fuel as [|fuel IH]; intros cur H; simpl; [done|].
  case_decide as Hc.
  - exfalso. apply (H cur Hc). lia.
  - apply IH. intros x Hx Hr. apply (H x Hx). lia.
Qed.

(** Without a member of the set on or before the start, the loop is
    still running after any number of iterations. *)
Lemma shift_back_diverges fuel (S : gset Z) cur :
  (∀ x, x ∈ S → cur < x) → shift_back fuel S cur = OutOfFuel.
Proof.
  intros H. apply shift_back_short. intros x Hx Hr. apply H in Hx. lia.
Qed.

Lemma shift_back_det fuel1 fuel2 (S : gset Z) cur d1 d2 :
  shift_back fuel1 S cur = Returns d1 → shift_back fuel2 S cur = Returns d2 →
  d1 = d2.
Proof.
  intros (A1 & A2 & A3 & _)%shift_back_Returns
         (B1 & B2 & B3 & _)%shift_back_Returns.
  destruct (Z.lt_total d1 d2) as [H|[H|H]]; [|done|].
  - exfalso. apply (A3 d2); [lia|done].
  - exfalso. apply (B3 d1); [lia|done].
Qed.

(** ** The for loop *)

Lemma adjust_each_shift_all fuel (S : gset Z) pre suf :
  adjust_each fuel S (seq (length pre) (length suf)) (pre ++ suf) =
  (suf' ←' shift_all fuel S suf; Returns (pre ++ suf')).
Proof.
  revert pre; induction suf as [|F suf IH]; intros pre; simpl.
  - by rewrite app_nil_r.
  - rewrite list_lookup_middle by done.
    destruct (shift_back fuel S F) as [D| |]; simpl; [|done..].
    rewrite (insert_app_r_alt pre) by lia.
    rewrite Nat.sub_diag. simpl.
    replace (pre ++ D :: suf) with ((pre ++ [D]) ++ suf) by by rewrite <-app_assoc.
    replace (Datatypes.S (length pre)) with (length (pre ++ [D]))
      by (rewrite length_app; simpl; lia).
    rewrite IH. destruct (shift_all fuel S suf); simpl; [|done..].
    by rewrite <-app_assoc.
Qed.

Lemma shift_all_Returns fuel (S : gset Z) l out :
  shift_all fuel S l = Returns out ↔
  Forall2 (λ F D, shift_back fuel S F = Returns D) l out.
Proof.
  revert out; induction l as [|F l IH]; intros out; simpl.
  - split; [intros [= <-]; constructor|by inversion 1].
  - destruct (shift_back fuel S F) as [D| |] eqn:HF; simpl.
    + destruct (shift_all fuel S l) as [l'| |]; simpl.
      * split.
        -- intros [= <-]. constructor; [done|by apply IH].
        -- inversion 1 as [|???? H1 H2]; simplify_eq.
           apply IH in H2. congruence.
      * split; [done|]. inversion 1 as [|???? H1 H2]; simplify_eq.
        by apply IH in H2.
      * split; [done|]. inversion 1 as [|???? H1 H2]; simplify_eq.
        by apply IH in H2.
    + split; [done|]. inversion 1; congruence.
    + split; [done|]. inversion 1; congruence.
Qed.

Lemma shift_all_not_Raises fuel (S : gset Z) l e :
  shift_all fuel S l ≠ Raises e.
Proof.
  induction l as [|F l IH]; simpl; [done|].
  destruct (shift_back fuel S F) eqn:HF; simpl; [| |done].
  - destruct (shift_all fuel S l); simpl; [done| |done]. intros [= ->]. done.
  - by apply shift_back_not_Raises in HF.
Qed.

(** ** The generator *)

Lemma elem_of_expiration_target_dates F start_date end_date months :
  F ∈ expiration_target_dates start_date end_date months ↔
  is_third_friday F = true ∧ month_of F ∈ months ∧ start_date ≤ F ≤ end_date.
Proof.
  unfold expiration_target_dates.
  rewrite list_elem_of_filter, elem_of_date_range. tauto.
Qed.

Section Generator.
Context (is_session : Z → bool).

Lemma elem_of_market_open_set d start_date end_date :
  d ∈ market_open_set is_session start_date end_date ↔
  start_date ≤ d ≤ end_date ∧ is_session d = true.
Proof.
  unfold market_open_set, valid_days.
  rewrite elem_of_list_to_set, list_elem_of_filter, elem_of_days_between.
  rewrite Is_true_true. tauto.
Qed.

Lemma get_expiration_dates_shift_all fuel start_date end_date months :
  get_expiration_dates is_session fuel start_date end_date months =
  shift_all fuel (market_open_set is_session start_date end_date)
    (expiration_target_dates start_date end_date months).
Proof.
  unfold get_expiration_dates.
  rewrite (adjust_each_shift_all fuel _ []). simpl.
  by destruct (shift_all _ _ _).
Qed.

Lemma get_expiration_dates_Returns fuel start_date end_date months canon :
  get_expiration_dates is_session fuel start_date end_date months
    = Returns canon ↔
  Forall2 (λ F D, shift_back fuel
             (market_open_set is_session start_date end_date) F = Returns D)
    (expiration_target_dates start_date end_date months) canon.
Proof. rewrite get_expiration_dates_shift_all. apply shift_all_Returns. Qed.

Lemma get_expiration_dates_not_Raises fuel start_date end_date months e :
  get_expiration_dates is_session fuel start_date end_date months ≠ Raises e.
Proof. rewrite get_expiration_dates_shift_all. apply shift_all_not_Raises. Qed.

(** The result does not depend on the fuel: it is the result of the
    unbounded loop. *)
Lemma get_expiration_dates_det fuel1 fuel2 start_date end_date months c1 c2 :
  get_expiration_dates is_session fuel1 start_date end_date months
    = Returns c1 →
  get_expiration_dates is_session fuel2 start_date end_date months
    = Returns c2 →
  c1 = c2.
Proof.
  rewrite !get_expiration_dates_Returns.
  generalize (expiration_target_dates start_date end_date months).
  intros l H1. revert c2. induction H1 as [|F D l c1 HD _ IH]; intros c2 H2.
  - by inversion H2.
  - inversion H2 as [|? D' ? c2' HD' H2']; simplify_eq.
    f_equal; [by eapply shift_back_det|by apply IH].
Qed.

(** A date that is returned is the last session of the range on or
    before a third Friday of the range, in a month asked for. *)
Lemma get_expiration_dates_elem fuel start_date end_date months canon D :
  get_expiration_dates is_session fuel start_date end_date months
    = Returns canon →
  D ∈ canon →
  ∃ F, is_third_friday F = true ∧ month_of F ∈ months ∧
       start_date ≤ F ≤ end_date ∧
       shift_back fuel (market_open_set is_session start_date end_date) F
         = Returns D.
Proof.
  rewrite get_expiration_dates_Returns. intros H HD.
  apply list_elem_of_lookup in HD as [i Hi].
  destruct (Forall2_lookup_r _ _ _ _ _ H Hi) as (F & HF & Hs).
  exists F. apply list_elem_of_lookup_2 in HF.
  apply elem_of_expiration_target_dates in HF as (? & ? & ?). done.
Qed.

(** The generator returns when every third Friday it adjusts has a
    session of the range on or before it; the length of the range is
    enough fuel. *)
Lemma shift_back_terminates fuel (S : gset Z) cur s :
  s ∈ S → s ≤ cur → cur - s < Z.of_nat fuel →
  ∃ d, shift_back fuel S cur = Returns d.
Proof.
  revert cur; induction fuel as [|fuel IH]; intros cur Hin Hle Hf; [lia|].
  simpl. case_decide as Hc; [by eexists|].
  apply IH; [done| |]; destruct (decide (s = cur)) as [->|]; done || lia.
Qed.

Lemma get_expiration_dates_terminates fuel start_date end_date months :
  (∀ F, F ∈ expiration_target_dates start_date end_date months →
        ∃ s, start_date ≤ s ≤ F ∧ is_session s = true) →
  end_date - start_date < Z.of_nat fuel →
  ∃ canon,
    get_expiration_dates is_session fuel start_date end_date months
      = Returns canon.
Proof.
  intros H Hfuel.
  assert (∀ l, (∀ F, F ∈ l →
                 F ∈ expiration_target_dates start_date end_date months) →
            ∃ canon, shift_all fuel
              (market_open_set is_session start_date end_date) l
              = Returns canon) as Hall.
  { induction l as [|F l IH]; intros Hl; simpl; [by eexists|].
    assert (F ∈ expiration_target_dates start_date end_date months) as HF
      by (apply Hl; left).
    destruct (H F HF) as (s & Hs & Hses).
    apply elem_of_expiration_target_dates in HF as (_ & _ & HFr).
    destruct (shift_back_terminates fuel
                (market_open_set is_session start_date end_date) F s)
      as [d ->]; [by apply elem_of_market_open_set; split; [lia|]|lia|lia|].
    destruct IH as [c ->]; [intros ? ?; apply Hl; by right|].
    by eexists. }
  rewrite get_expiration_dates_shift_all. by apply Hall.
Qed.

(** When none of the [fuel] days that end at a third Friday to adjust
    is a session of the range, the generator is still running after
    [fuel] iterations of the search. *)
Lemma get_expiration_dates_short fuel start_date end_date months F :
  F ∈ expiration_target_dates start_date end_date months →
  (∀ x, start_date ≤ x → F - Z.of_nat fuel < x ≤ F → is_session x = false) →
  get_expiration_dates is_session fuel start_date end_date months
    = OutOfFuel.
Proof.
  intros HF Hgap. rewrite get_expiration_dates_shift_all.
  assert (shift_back fuel (market_open_set is_session start_date end_date) F
          = OutOfFuel) as HFd.
  { apply shift_back_short. intros x [Hx Hs]%elem_of_market_open_set Hr.
    rewrite Hgap in Hs by lia. done. }
  induction (expiration_target_dates start_date end_date months)
    as [|F' l IH]; [by apply elem_of_nil in HF|].
  simpl. apply elem_of_cons in HF as [<-|HF].
  - by rewrite HFd.
  - destruct (shift_back _ _ F') eqn:E; simpl;
      [|by apply shift_back_not_Raises in E|done].
    by rewrite IH.
Qed.

End Generator.

(** ** The remap table *)

Lemma potential_expiration_dates_fmap canon :
  potential_expiration_dates canon = (λ d, (d + 1, d)) <$> canon.
Proof.
  unfold potential_expiration_dates.
  induction canon as [|D canon IH]; simpl; [done|]. by f_equal.
Qed.

Lemma foldl_insert_lookup (l : list Z) (m : gmap Z Z) k :
  foldl (λ m kv, <[kv.1 := kv.2]> m) m ((λ d, (d + 1, d)) <$> l) !! k =
  if decide (k - 1 ∈ l) then Some (k - 1) else m !! k.
Proof.
  revert m; induction l as [|D l IH]; intros m.
  - by rewrite decide_False by apply not_elem_of_nil.
  - rewrite fmap_cons. cbn [foldl fst snd]. rewrite IH.
    destruct (decide (k - 1 ∈ l)) as [Hl|Hl].
    + rewrite decide_True; [done|by right].
    + destruct (decide (k - 1 = D)) as [E|E].
      * rewrite decide_True by (rewrite E; left).
        replace k with (D + 1) by lia. rewrite lookup_insert_eq.
        f_equal. lia.
      * rewrite decide_False by (intros [?|?]%elem_of_cons; done).
        rewrite lookup_insert_ne; [done|lia].
Qed.

(** The table maps [D + 1] to [D] for every [D] of the list, and nothing
    else. *)
Lemma remap_lookup canon k :
  dict_of_pairs (potential_expiration_dates canon) !! k =
  if decide (k - 1 ∈ canon) then Some (k - 1) else None.
Proof.
  unfold dict_of_pairs. rewrite potential_expiration_dates_fmap.
  by rewrite foldl_insert_lookup, lookup_empty.
Qed.

Lemma replace_value_remap canon v :
  replace_value (dict_of_pairs (potential_expiration_dates canon)) v =
  if decide (v - 1 ∈ canon) then v - 1 else v.
Proof. unfold replace_value. rewrite remap_lookup. by case_decide. Qed.

Lemma replace_value_mono canon v w :
  v ≤ w →
  replace_value (dict_of_pairs (potential_expiration_dates canon)) v ≤
  replace_value (dict_of_pairs (potential_expiration_dates canon)) w.
Proof.
  intros H. rewrite !replace_value_remap.
  repeat case_decide; try lia.
  destruct (decide (v = w)) as [->|]; [done|lia].
Qed.

(** ** [groupby("date").head(n)] *)

Lemma StronglySorted_sublist {A} (R : relation A) (k l : list A) :
  k `sublist_of` l → StronglySorted R l → StronglySorted R k.
Proof.
  induction 1 as [|x k l Hs IH|x k l Hs IH]; intros Hl; [done| |].
  - apply StronglySorted_inv in Hl as [Hl Hx].
    constructor; [by apply IH|].
    apply Forall_forall. intros y Hy. eapply Forall_forall in Hx; [done|].
    by eapply elem_of_sublist.
  - apply StronglySorted_inv in Hl as [Hl _]. by apply IH.
Qed.

Section Head.
Context {Other : Type}.
Implicit Types (df : list (Row Other)) (r : Row Other) (seen : Z → nat).

Lemma head_from_sublist n seen df : head_from n seen df `sublist_of` df.
Proof.
  revert seen; induction df as [|r df IH]; intros seen; simpl; [done|].
  case_decide; [by apply sublist_skip|by apply sublist_cons].
Qed.

(** Of the rows of one date, [head] keeps the first [n], less those
    already seen. *)
Lemma head_from_filter n seen df d :
  filter (λ r, date r = d) (head_from n seen df) =
  take (n - seen d) (filter (λ r, date r = d) df).
Proof.
  revert seen; induction df as [|r df IH]; intros seen; cbn [head_from].
  - rewrite filter_nil. by rewrite take_nil.
  - rewrite (filter_cons _ r df).
    destruct (decide (seen (date r) < n)%nat) as [Hlt|Hge].
    + rewrite filter_cons, IH.
      destruct (decide (date r = d)) as [<-|Hne].
      * rewrite decide_True by done.
        destruct (n - seen (date r))%nat as [|k] eqn:E; [lia|].
        simpl. do 2 f_equal. lia.
      * by rewrite decide_False by done.
    + rewrite IH.
      destruct (decide (date r = d)) as [<-|Hne].
      * rewrite decide_True by done.
        replace (n - seen (date r))%nat with 0%nat by lia.
        replace (n - Datatypes.S (seen (date r)))%nat with 0%nat by lia.
        done.
      * by rewrite decide_False by done.
Qed.

Lemma head_from_ext n seen1 seen2 df :
  (∀ d, (seen1 d `min` n = seen2 d `min` n)%nat) →
  head_from n seen1 df = head_from n seen2 df.
Proof.
  revert seen1 seen2; induction df as [|r df IH]; intros seen1 seen2 H;
    simpl; [done|].
  assert (∀ d, ((if decide (d = date r) then Datatypes.S (seen1 d)
                 else seen1 d) `min` n =
                (if decide (d = date r) then Datatypes.S (seen2 d)
                 else seen2 d) `min` n)%nat) as H'.
  { intros d. specialize (H d). case_decide; lia. }
  pose proof (H (date r)).
  rewrite (IH _ _ H').
  destruct (decide (seen1 (date r) < n)%nat),
           (decide (seen2 (date r) < n)%nat); done || lia.
Qed.

Lemma head_from_idem n seen df :
  head_from n seen (head_from n seen df) = head_from n seen df.
Proof.
  revert seen; induction df as [|r df IH]; intros seen; simpl; [done|].
  destruct (decide (seen (date r) < n)%nat) as [Hlt|Hge]; simpl.
  - rewrite decide_True by done. by rewrite IH.
  - rewrite <-(IH (λ d, if decide (d = date r) then Datatypes.S (seen d)
                        else seen d)) at 2.
    apply head_from_ext. intros d. case_decide; [subst; lia|done].
Qed.

Lemma groupby_head_sublist n df : groupby_head n df `sublist_of` df.
Proof. apply head_from_sublist. Qed.

Lemma groupby_head_filter n df d :
  filter (λ r, date r = d) (groupby_head n df) =
  take n (filter (λ r, date r = d) df).
Proof. unfold groupby_head. rewrite head_from_filter. by rewrite Nat.sub_0_r. Qed.

Lemma groupby_head_idem n df :
  groupby_head n (groupby_head n df) = groupby_head n df.
Proof. apply head_from_idem. Qed.
End Head.

(** ** The reconciler *)

Section Reconciler.
Context (is_session : Z → bool) {Other : Type}.
Implicit Types (df out : list (Row Other)) (r : Row Other).

Local Notation "'quarterly'" := [3; 6; 9; 12].

Lemma filter_index_Returns fuel df start_date end_date out :
  filter_index_implied_dividend_yield is_session fuel df start_date end_date
    = Returns out ↔
  ∃ canon,
    get_expiration_dates is_session fuel start_date end_date quarterly
      = Returns canon ∧ out = reconcile_with canon df.
Proof.
  unfold filter_index_implied_dividend_yield.
  destruct (get_expiration_dates _ _ _ _ _) as [canon| |]; simpl.
  - split; [intros [= <-]; by eexists|by intros (? & [= <-] & ->)].
  - split; [done|by intros (? & ? & _)].
  - split; [done|by intros (? & ? & _)].
Qed.

Lemma replace_expiration_id (d : gmap Z Z) r :
  replace_value d (expiration r) = expiration r → replace_expiration d r = r.
Proof. unfold replace_expiration. intros ->. by destruct r. Qed.

Lemma reconcile_with_sublist canon df :
  reconcile_with canon df `sublist_of` replace_column canon df.
Proof.
  unfold reconcile_with, isin_column.
  etrans; [apply groupby_head_sublist|apply sublist_filter].
Qed.

Lemma reconcile_with_elem canon df r :
  r ∈ reconcile_with canon df → expiration r ∈ canon.
Proof.
  unfold reconcile_with. intros H.
  eapply elem_of_sublist in H; [|apply groupby_head_sublist].
  unfold isin_column in H. by apply list_elem_of_filter in H as [? _].
Qed.

(** C1. Remap correctness.  When the generator returns the canonical
    dates, the reconciler returns the first two rows per date of the
    canonical rows of the rewritten table, and in the rewritten table
    a row whose expiration is a canonical date plus one day has that
    canonical date as its expiration, and a row whose expiration is
    not a key of the remap table is unchanged. *)
Theorem remap_correct fuel df start_date end_date canon :
  get_expiration_dates is_session fuel start_date end_date quarterly
    = Returns canon →
  filter_index_implied_dividend_yield is_session fuel df start_date end_date
    = Returns (groupby_head 2
                 (isin_column canon (replace_column canon df))) ∧
  ∀ i r, df !! i = Some r →
    (∀ D, D ∈ canon → expiration r = D + 1 →
       dict_of_pairs (potential_expiration_dates canon) !! (D + 1) = Some D ∧
       replace_column canon df !! i = Some (mkRow (date r) D (other r))) ∧
    (dict_of_pairs (potential_expiration_dates canon) !! expiration r = None →
       replace_column canon df !! i = Some r).
Proof.
  intros Hgen. split.
  { unfold filter_index_implied_dividend_yield. by rewrite Hgen. }
  intros i r Hi. unfold replace_column. rewrite list_lookup_fmap, Hi. simpl.
  split.
  - intros D HD HE.
    assert (dict_of_pairs (potential_expiration_dates canon) !! (D + 1)
            = Some D) as Hl.
    { rewrite remap_lookup.
      replace (D + 1 - 1) with D by lia. by rewrite decide_True. }
    split; [done|]. unfold replace_expiration, replace_value.
    by rewrite HE, Hl.
  - intros HN. f_equal. apply replace_expiration_id.
    unfold replace_value. by rewrite HN.
Qed.

(** The rewriting keeps the ascending order of the expirations. *)
Lemma replace_column_sorted canon df :
  StronglySorted Z.le (expiration <$> df) →
  StronglySorted Z.le (expiration <$> replace_column canon df).
Proof.
  intros H.
  assert (expiration <$> replace_column canon df =
          replace_value (dict_of_pairs (potential_expiration_dates canon))
            <$> (expiration <$> df)) as ->.
  { unfold replace_column. by rewrite <-!list_fmap_compose. }
  eapply StronglySorted_fmap; [|done].
  intros x y. apply replace_value_mono.
Qed.

Lemma filter_date_replace_column canon df d :
  filter (λ r, date r = d) (replace_column canon df) =
  replace_column canon (filter (λ r, date r = d) df).
Proof.
  unfold replace_column. induction df as [|r df IH]; [done|].
  rewrite fmap_cons, !filter_cons. simpl.
  case_decide; [rewrite fmap_cons|]; by rewrite IH.
Qed.

Lemma filter_date_isin_column canon df d :
  filter (λ r, date r = d) (isin_column canon df) =
  isin_column canon (filter (λ r, date r = d) df).
Proof.
  unfold isin_column. induction df as [|r df IH]; [done|].
  rewrite !filter_cons.
  repeat (case_decide; rewrite ?filter_cons); rewrite ?IH; done.
Qed.
Lemma isin_column_all canon out :
  (∀ r, r ∈ out → expiration r ∈ canon) → isin_column canon out = out.
Proof.
  unfold isin_column. induction out as [|r out IH]; intros H; [done|].
  rewrite filter_cons, decide_True by (apply H; left).
  f_equal. apply IH. intros r' Hr'. apply H. by right.
Qed.

Lemma isin_column_nil df : isin_column [] df = [].
Proof.
  unfold isin_column. induction df as [|r df IH]; [done|].
  rewrite filter_cons, decide_False by apply not_elem_of_nil. done.
Qed.

Lemma replace_column_id canon out :
  (∀ r, r ∈ out → expiration r - 1 ∉ canon) → replace_column canon out = out.
Proof.
  unfold replace_column. induction out as [|r out IH]; intros H; [done|].
  rewrite fmap_cons. f_equal.
  - apply replace_expiration_id. rewrite replace_value_remap.
    rewrite decide_False; [done|]. apply H. left.
  - apply IH. intros r' Hr'. apply H. by right.
Qed.

(** The reconciler is idempotent for a list of canonical dates in
    which no date is the day after another. *)
Lemma reconcile_with_idem canon df :
  (∀ D, D ∈ canon → D - 1 ∉ canon) →
  reconcile_with canon (reconcile_with canon df) = reconcile_with canon df.
Proof.
  intros Hadj. unfold reconcile_with at 1.
  rewrite replace_column_id.
  - rewrite isin_column_all by apply reconcile_with_elem.
    apply groupby_head_idem.
  - intros r Hr. apply Hadj. by eapply reconcile_with_elem.
Qed.

(** C3, amended.  For every observation date the reconciler keeps the
    first two, in the order of the table, of the rows of that date
    left by the canonical-membership filter, and all of them when
    there are fewer than two; the rows kept are in ascending order of
    expiration when the rows of that date are so in the input. *)
Theorem first_two_per_date fuel df start_date end_date out d :
  filter_index_implied_dividend_yield is_session fuel df start_date end_date
    = Returns out →
  ∃ canon,
    get_expiration_dates is_session fuel start_date end_date quarterly
      = Returns canon ∧
    let survivors :=
      filter (λ r, date r = d)
        (isin_column canon (replace_column canon df)) in
    filter (λ r, date r = d) out = take 2 survivors ∧
    (2 ≤ length survivors → length (filter (λ r, date r = d) out) = 2)%nat ∧
    (length survivors < 2 → filter (λ r, date r = d) out = survivors)%nat ∧
    (StronglySorted Z.le (expiration <$> filter (λ r, date r = d) df) →
     StronglySorted Z.le (expiration <$> filter (λ r, date r = d) out)).
Proof.
  intros (canon & Hgen & ->)%filter_index_Returns.
  exists canon. split; [done|]. cbn zeta.
  unfold reconcile_with. rewrite groupby_head_filter.
  split; [done|]. split; [|split].
  - intros H. rewrite length_take. lia.
  - intros H. apply take_ge. lia.
  - intros Hs. eapply StronglySorted_sublist.
    + apply fmap_sublist. apply sublist_take.
    + rewrite filter_date_isin_column, filter_date_replace_column.
      eapply StronglySorted_sublist.
      * apply fmap_sublist. apply sublist_filter.
      * by apply replace_column_sorted.
Qed.

Lemma get_expiration_dates_empty fuel start_date end_date months :
  expiration_target_dates start_date end_date months = [] →
  get_expiration_dates is_session fuel start_date end_date months
    = Returns [].
Proof. unfold get_expiration_dates. by intros ->. Qed.

(** C7, amended.  When the range holds no third Friday of a quarterly
    month, the generator returns the empty list and the reconciler
    returns the empty table; no error is raised. *)
Theorem empty_range_returns_empty fuel df start_date end_date :
  expiration_target_dates start_date end_date quarterly = [] →
  get_expiration_dates is_session fuel start_date end_date quarterly
    = Returns [] ∧
  filter_index_implied_dividend_yield is_session fuel df start_date end_date
    = Returns [].
Proof.
  intros H. split; [by apply get_expiration_dates_empty|].
  unfold filter_index_implied_dividend_yield.
  rewrite get_expiration_dates_empty by done. simpl.
  unfold reconcile_with. by rewrite isin_column_nil.
Qed.
End Reconciler.


(** ** Canonical dates under the assumption on the calendar *)

Section Canonical.
Context (is_session : Z → bool) {Other : Type}.
Hypothesis third_friday_gap : sessions_near_third_fridays is_session.
Implicit Types (df out : list (Row Other)) (r : Row Other).

Local Notation "'quarterly'" := [3; 6; 9; 12].

(** The date the while loop returns for a third Friday of the range is
    a session at most four days before it, in the same month. *)
Lemma shift_back_near fuel start_date end_date F D :
  is_third_friday F = true → start_date ≤ F ≤ end_date →
  shift_back fuel (market_open_set is_session start_date end_date) F
    = Returns D →
  F - 4 ≤ D ≤ F ∧ is_session D = true ∧ start_date ≤ D ∧
  month_of D = month_of F ∧ year_of D = year_of F.
Proof.
  intros HF Hr Hs.
  pose proof (shift_back_Returns _ _ _ _ Hs) as (HDS & HDF & Hlast & _).
  apply elem_of_market_open_set in HDS as [HDr HDs].
  destruct (third_friday_gap F HF) as (s & Hsr & Hss).
  assert (F - 4 ≤ D) as Hnear.
  { destruct (decide (s ≤ D)); [lia|].
    destruct (decide (start_date ≤ s)); [|lia].
    exfalso. apply (Hlast s); [lia|].
    apply elem_of_market_open_set. split; [lia|done]. }
  apply is_third_friday_spec in HF as [_ Hday].
  destruct (month_of_back F D) as [Hmo Hyr]; [lia|lia|].
  repeat split; try done; lia.
Qed.

Lemma canonical_near fuel start_date end_date months canon D :
  get_expiration_dates is_session fuel start_date end_date months
    = Returns canon →
  D ∈ canon →
  ∃ F, is_third_friday F = true ∧ month_of F ∈ months ∧
       start_date ≤ F ≤ end_date ∧ F - 4 ≤ D ≤ F ∧
       is_session D = true ∧ start_date ≤ D ∧
       month_of D = month_of F ∧ year_of D = year_of F ∧
       shift_back fuel (market_open_set is_session start_date end_date) F
         = Returns D.
Proof.
  intros Hgen HD.
  destruct (get_expiration_dates_elem _ _ _ _ _ _ _ Hgen HD)
    as (F & HF & Hm & Hr & Hs).
  destruct (shift_back_near _ _ _ _ _ HF Hr Hs) as (? & ? & ? & ? & ?).
  exists F. repeat split; try done; lia.
Qed.

(** What the generator does when every third Friday it adjusts has a
    session of the range on or before it: it returns one date for each
    third Friday of the range in a month asked for, a session at most
    four days before that Friday, in the same month of the same year. *)
Lemma get_expiration_dates_adjusts fuel start_date end_date months :
  (∀ F, F ∈ expiration_target_dates start_date end_date months →
        ∃ s, start_date ≤ s ≤ F ∧ is_session s = true) →
  end_date - start_date < Z.of_nat fuel →
  ∃ canon,
    get_expiration_dates is_session fuel start_date end_date months
      = Returns canon ∧
    Forall2 (λ F D, F - 4 ≤ D ≤ F ∧ is_session D = true ∧
                    month_of D = month_of F ∧ year_of D = year_of F)
      (expiration_target_dates start_date end_date months) canon.
Proof.
  intros Hses Hfuel.
  destruct (get_expiration_dates_terminates is_session fuel start_date
              end_date months Hses Hfuel) as [canon Hgen].
  exists canon. split; [done|].
  apply get_expiration_dates_Returns in Hgen.
  assert (Forall (λ F, is_third_friday F = true ∧ start_date ≤ F ≤ end_date)
            (expiration_target_dates start_date end_date months)) as Hall.
  { apply Forall_forall.
    intros F (? & _ & ?)%elem_of_expiration_target_dates. done. }
  revert Hgen Hall.
  generalize (expiration_target_dates start_date end_date months).
  intros l Hgen.
  induction Hgen as [|F D l c HD _ IH]; intros Hall; [constructor|].
  apply Forall_cons in Hall as [[HF Hr] Hall].
  constructor; [|by apply IH].
  destruct (shift_back_near _ _ _ _ _ HF Hr HD) as (? & ? & ? & ? & ?). done.
Qed.

Lemma canonical_not_adjacent fuel start_date end_date months canon D :
  get_expiration_dates is_session fuel start_date end_date months
    = Returns canon →
  D ∈ canon → D - 1 ∉ canon.
Proof.
  intros Hgen HD HD'.
  destruct (canonical_near _ _ _ _ _ _ Hgen HD)
    as (F & HF & _ & _ & Hn & _ & _ & _ & _ & Hs).
  destruct (canonical_near _ _ _ _ _ _ Hgen HD')
    as (F' & HF' & _ & _ & Hn' & _ & _ & _ & _ & Hs').
  destruct (decide (F = F')) as [<-|Hne].
  - pose proof (shift_back_det _ _ _ _ _ _ Hs Hs'). lia.
  - apply is_third_friday_spec in HF as [HF _].
    apply is_third_friday_spec in HF' as [HF' _].
    assert (weekday F = weekday F') as Hw by congruence.
    pose proof (weekday_apart F F' Hw Hne). lia.
Qed.

(** C5.  Idempotence: the reconciler applied to its own output, with the
    same range, returns that output. *)
Theorem reconcile_idempotent fuel df start_date end_date out :
  filter_index_implied_dividend_yield is_session fuel df start_date end_date
    = Returns out →
  filter_index_implied_dividend_yield is_session fuel out start_date end_date
    = Returns out.
Proof.
  intros (canon & Hgen & ->)%filter_index_Returns.
  apply filter_index_Returns. exists canon. split; [done|].
  symmetry. apply reconcile_with_idem.
  intros D HD. by eapply canonical_not_adjacent.
Qed.
End Canonical.


(** C2.  Every row of the output has a canonical expiration, a date
    returned by the generator for the range; under the assumption on the
    calendar such a date is in March, June, September or December, so no
    row with an expiration in another month, January or April say, is in
    the output. *)
Theorem output_is_canonical (is_session : Z → bool) {Other : Type} fuel
    (df out : list (Row Other)) start_date end_date r :
  filter_index_implied_dividend_yield is_session fuel df start_date end_date
    = Returns out →
  r ∈ out →
  ∃ canon,
    get_expiration_dates is_session fuel start_date end_date [3; 6; 9; 12]
      = Returns canon ∧
    expiration r ∈ canon ∧
    (sessions_near_third_fridays is_session →
     month_of (expiration r) ∈ [3; 6; 9; 12] ∧
     month_of (expiration r) ≠ 1 ∧ month_of (expiration r) ≠ 4).
Proof.
  intros (canon & Hgen & ->)%filter_index_Returns Hr.
  apply reconcile_with_elem in Hr.
  exists canon. split; [done|]. split; [done|]. intros Hgap.
  destruct (canonical_near _ Hgap _ _ _ _ _ _ Hgen Hr)
    as (F & _ & Hm & _ & _ & _ & _ & -> & _).
  split; [done|]. rewrite !elem_of_cons, elem_of_nil in Hm. lia.
Qed.

(** ** The store: the input object is not written *)

Section Store.
Context (is_session : Z → bool) {Other : Type}.
Implicit Types (h : list (list (Row Other))) (rows : list (Row Other)).

Lemma sublist_fmap_inv {A B} (f : A → B) (k : list B) (l : list A) :
  k `sublist_of` f <$> l → ∃ k', k' `sublist_of` l ∧ k = f <$> k'.
Proof.
  revert k; induction l as [|x l IH]; intros k H.
  - apply sublist_nil_r in H as ->. by exists [].
  - rewrite fmap_cons in H. apply sublist_cons_r in H as [H|(k0 & -> & H)].
    + destruct (IH _ H) as (k' & Hk' & ->).
      exists k'. split; [by apply sublist_cons|done].
    + destruct (IH _ H) as (k' & Hk' & ->).
      exists (x :: k'). split; [by apply sublist_skip|done].
Qed.

(** The output is a sublist of the input, each row with its expiration
    rewritten. *)
Lemma reconcile_with_kept canon rows :
  ∃ kept, kept `sublist_of` rows ∧
    reconcile_with canon rows =
    replace_expiration (dict_of_pairs (potential_expiration_dates canon))
      <$> kept.
Proof. apply sublist_fmap_inv, reconcile_with_sublist. Qed.

(** The run on the store: three objects are appended, the copy (then
    rewritten), the filtered table and the result. *)
Lemma store_run fuel df start_date end_date h canon :
  get_expiration_dates is_session fuel start_date end_date [3; 6; 9; 12]
    = Returns canon →
  filter_index_implied_dividend_yield_store is_session fuel df
    start_date end_date h
  = Returns (S (S (length h)),
             h ++ [ replace_column canon (contents h df);
                    isin_column canon (replace_column canon (contents h df));
                    reconcile_with canon (contents h df) ]).
Proof.
  intros Hgen. unfold filter_index_implied_dividend_yield_store, new_object.
  rewrite Hgen. cbn [bind].
  assert (∀ (l : list (list (Row Other))) x, contents (l ++ [x]) (length l) = x)
    as Hlast.
  { intros l x. unfold contents. by rewrite list_lookup_middle. }
  rewrite Hlast.
  rewrite (insert_app_r_alt h) by lia. rewrite Nat.sub_diag. cbn [insert list_insert].
  rewrite Hlast.
  rewrite !length_app. cbn [length].
  replace (length h + 1)%nat with (length (h ++ [replace_column canon (contents h df)]))
    by (rewrite length_app; simpl; lia).
  rewrite Hlast.
  rewrite !length_app. cbn [length].
  do 2 f_equal; [lia|]. by rewrite <-!app_assoc.
Qed.

Lemma store_run_Returns fuel df start_date end_date h res h' :
  filter_index_implied_dividend_yield_store is_session fuel df
    start_date end_date h = Returns (res, h') →
  ∃ canon,
    get_expiration_dates is_session fuel start_date end_date [3; 6; 9; 12]
      = Returns canon.
Proof.
  unfold filter_index_implied_dividend_yield_store, new_object.
  destruct (get_expiration_dates _ _ _ _ _) as [canon| |]; [by eexists|done..].
Qed.

(** C10.  The reconciler does not write its input: every object of the
    store before the call, the input table among them, has the same
    contents after it, and the result is a new object.  The result holds
    a sublist of the input rows, in their order, each with the same date
    and the same other columns, and an expiration that is unchanged or
    one day earlier. *)
Theorem input_not_mutated fuel df start_date end_date h rows res h' :
  h !! df = Some rows →
  filter_index_implied_dividend_yield_store is_session fuel df
    start_date end_date h = Returns (res, h') →
  h' !! df = Some rows ∧
  (∀ obj v, h !! obj = Some v → h' !! obj = Some v) ∧
  h !! res = None ∧
  filter_index_implied_dividend_yield is_session fuel rows
    start_date end_date = Returns (contents h' res) ∧
  ∃ kept, kept `sublist_of` rows ∧
    Forall2 (λ r r', date r' = date r ∧ other r' = other r ∧
               (expiration r' = expiration r ∨
                expiration r' = expiration r - 1))
      kept (contents h' res).
Proof.
  intros Hdf Hrun.
  destruct (store_run_Returns _ _ _ _ _ _ _ Hrun) as [canon Hgen].
  rewrite (store_run _ _ _ _ _ _ Hgen) in Hrun.
  injection Hrun as <- <-.
  assert (contents h df = rows) as -> by (unfold contents; by rewrite Hdf).
  assert (∀ obj v, h !! obj = Some v →
            (h ++ [replace_column canon rows;
                   isin_column canon (replace_column canon rows);
                   reconcile_with canon rows]) !! obj = Some v) as Hframe.
  { intros obj v Hv. by apply lookup_app_l_Some. }
  assert (contents (h ++ [replace_column canon rows;
                   isin_column canon (replace_column canon rows);
                   reconcile_with canon rows]) (S (S (length h)))
          = reconcile_with canon rows) as Hres.
  { unfold contents. rewrite lookup_app_r by lia.
    replace (S (S (length h)) - length h)%nat with 2%nat by lia. done. }
  split; [by apply Hframe|]. split; [done|].
  split; [apply lookup_ge_None; lia|].
  rewrite Hres. split.
  { unfold filter_index_implied_dividend_yield. by rewrite Hgen. }
  destruct (reconcile_with_kept canon rows) as (kept & Hk & ->).
  exists kept. split; [done|].
  apply Forall2_fmap_r, Forall_Forall2_diag, Forall_forall.
  intros r _. simpl. rewrite replace_value_remap.
  repeat split. case_decide; [by right|by left].
Qed.

End Store.


(** ** The sample calendar and the scenarios *)

Ltac ymd_eval :=
  repeat match goal with
  | |- context [ymd ?y ?m ?d] =>
      let v := eval vm_compute in (ymd y m d) in
      change (ymd y m d) with v
  end.

Lemma sample_session_spec d :
  sample_session d = true ↔ weekday d < 5 ∧ d ∉ sample_holidays.
Proof.
  unfold sample_session.
  rewrite andb_true_iff, Z.ltb_lt, negb_true_iff, bool_decide_eq_false. done.
Qed.

(** The sample calendar meets the assumption on the calendar. *)
Lemma sample_session_near : sessions_near_third_fridays sample_session.
Proof.
  intros F [Hw _]%is_third_friday_spec.
  destruct (decide (F ∈ sample_holidays)) as [Hin|Hout].
  - exists (F - 1). split; [lia|].
    unfold sample_holidays in Hin.
    repeat (apply elem_of_cons in Hin as [->|Hin];
            [first [ by vm_compute in Hw | by vm_compute ]|]).
    by apply elem_of_nil in Hin.
  - exists F. split; [lia|]. apply sample_session_spec. split; [lia|done].
Qed.

Lemma expiration_target_dates_2020 :
  expiration_target_dates start_2020 end_2020 [3; 6; 9; 12] = canon_2020.
Proof. vm_compute. reflexivity. Qed.

Lemma expiration_target_dates_2008 :
  expiration_target_dates start_2008 end_2008 [3; 6; 9; 12] =
  [ymd 2008 3 21; ymd 2008 6 20; ymd 2008 9 19; ymd 2008 12 19].
Proof. vm_compute. reflexivity. Qed.

Lemma good_friday_2008_closed x :
  start_2008 ≤ x → x ≤ ymd 2008 3 21 → sample_session x = false.
Proof.
  unfold start_2008. intros H1 H2.
  assert (x = ymd 2008 3 21) as -> by lia. by vm_compute.
Qed.

(** C8.  The scenario of 2020.  With a calendar that is open on the
    third Fridays of March, June, September and December 2020, the
    canonical dates of the range 2020-01-01 to 2020-12-31 are those four
    Fridays; the row of 2020-03-02 with expiration 2020-03-21 comes out
    with expiration 2020-03-20, and the row with expiration 2020-04-17
    does not come out. *)
Theorem scenario_2020 (is_session : Z → bool) {Other : Type} fuel
    (o1 o2 : Other) :
  is_session (ymd 2020 3 20) = true → is_session (ymd 2020 6 19) = true →
  is_session (ymd 2020 9 18) = true → is_session (ymd 2020 12 18) = true →
  get_expiration_dates is_session (S fuel) (ymd 2020 1 1) (ymd 2020 12 31)
    [3; 6; 9; 12]
    = Returns [ymd 2020 3 20; ymd 2020 6 19; ymd 2020 9 18; ymd 2020 12 18] ∧
  filter_index_implied_dividend_yield is_session (S fuel)
    [mkRow (ymd 2020 3 2) (ymd 2020 3 21) o1] (ymd 2020 1 1) (ymd 2020 12 31)
    = Returns [mkRow (ymd 2020 3 2) (ymd 2020 3 20) o1] ∧
  filter_index_implied_dividend_yield is_session (S fuel)
    [mkRow (ymd 2020 3 2) (ymd 2020 4 17) o2] (ymd 2020 1 1) (ymd 2020 12 31)
    = Returns [] ∧
  filter_index_implied_dividend_yield is_session (S fuel)
    [mkRow (ymd 2020 3 2) (ymd 2020 3 21) o1;
     mkRow (ymd 2020 3 2) (ymd 2020 4 17) o2] (ymd 2020 1 1) (ymd 2020 12 31)
    = Returns [mkRow (ymd 2020 3 2) (ymd 2020 3 20) o1].
Proof.
  intros H3 H6 H9 H12.
  assert (get_expiration_dates is_session (S fuel) (ymd 2020 1 1)
            (ymd 2020 12 31) [3; 6; 9; 12] = Returns canon_2020) as Hgen.
  { apply get_expiration_dates_Returns.
    change (ymd 2020 1 1) with start_2020.
    change (ymd 2020 12 31) with end_2020.
    rewrite expiration_target_dates_2020. unfold canon_2020.
    repeat (constructor;
      [cbn [shift_back]; rewrite decide_True;
         [done|apply elem_of_market_open_set; split;
                 [unfold start_2020, end_2020; ymd_eval; lia|done]]|]).
    constructor. }
  split; [exact Hgen|].
  unfold filter_index_implied_dividend_yield. rewrite Hgen. cbn [bind].
  repeat split; f_equal; vm_compute; reflexivity.
Qed.

(** ** Counterexamples to the claims as stated *)

(** C3 as stated fails: two rows of one date, both canonical, the later
    maturity first, are both kept, in that order. *)
Lemma first_two_not_ascending :
  filter_index_implied_dividend_yield sample_session 1 unsorted_df
    start_2020 end_2020 = Returns unsorted_df ∧
  date <$> unsorted_df = [ymd 2020 3 2; ymd 2020 3 2] ∧
  expiration <$> unsorted_df = [ymd 2020 6 19; ymd 2020 3 20] ∧
  ymd 2020 3 20 < ymd 2020 6 19.
Proof. by vm_compute. Qed.


(** C7 as stated fails: on a range without a quarterly third Friday the
    generator returns the empty list and the reconciler the empty table. *)
Lemma no_empty_range_error :
  get_expiration_dates sample_session 10 (ymd 2020 1 1) (ymd 2020 2 29)
    [3; 6; 9; 12] = Returns [] ∧
  filter_index_implied_dividend_yield sample_session 10 sample_df
    (ymd 2020 1 1) (ymd 2020 2 29) = Returns [].
Proof. by vm_compute. Qed.

(** ** The theorems at the sample inputs *)

Lemma get_expiration_dates_sample_2020 :
  get_expiration_dates sample_session 1 start_2020 end_2020 [3; 6; 9; 12]
    = Returns canon_2020.
Proof. vm_compute. reflexivity. Qed.

Lemma filter_sample_df :
  filter_index_implied_dividend_yield sample_session 1 sample_df
    start_2020 end_2020 = Returns sample_out.
Proof. vm_compute. reflexivity. Qed.

Lemma remap_correct_witness :
  get_expiration_dates sample_session 1 start_2020 end_2020 [3; 6; 9; 12]
    = Returns canon_2020 ∧
  replace_column canon_2020 sample_df !! 0%nat
    = Some (mkRow (ymd 2020 3 2) (ymd 2020 3 20) "a") ∧
  replace_column canon_2020 sample_df !! 1%nat
    = Some (mkRow (ymd 2020 3 2) (ymd 2020 4 17) "b").
Proof.
  split; [vm_compute; reflexivity|].
  destruct (remap_correct sample_session 1 sample_df start_2020 end_2020
              canon_2020 get_expiration_dates_sample_2020) as [_ Hrows].
  split.
  - apply (proj1 (Hrows 0%nat (mkRow (ymd 2020 3 2) (ymd 2020 3 21) "a")
                    eq_refl) (ymd 2020 3 20)); [left|vm_compute; reflexivity].
  - apply (proj2 (Hrows 1%nat (mkRow (ymd 2020 3 2) (ymd 2020 4 17) "b")
                    eq_refl)).
    vm_compute. reflexivity.
Defined.

Lemma output_is_canonical_witness :
  filter_index_implied_dividend_yield sample_session 1 sample_df
    start_2020 end_2020 = Returns sample_out ∧
  mkRow (ymd 2020 3 2) (ymd 2020 3 20) "a" ∈ sample_out ∧
  month_of (ymd 2020 3 20) ∈ [3; 6; 9; 12].
Proof.
  split; [vm_compute; reflexivity|]. split; [left|].
  destruct (output_is_canonical sample_session 1 sample_df sample_out
              start_2020 end_2020 (mkRow (ymd 2020 3 2) (ymd 2020 3 20) "a")
              filter_sample_df ltac:(left))
    as (canon & _ & _ & Hmonth).
  apply Hmonth, sample_session_near.
Defined.

Lemma first_two_per_date_witness :
  filter_index_implied_dividend_yield sample_session 1 sample_df
    start_2020 end_2020 = Returns sample_out ∧
  ∃ canon,
    get_expiration_dates sample_session 1 start_2020 end_2020 [3; 6; 9; 12]
      = Returns canon ∧
    filter (λ r, date r = ymd 2020 3 2) sample_out =
    take 2 (filter (λ r, date r = ymd 2020 3 2)
              (isin_column canon (replace_column canon sample_df))).
Proof.
  split; [vm_compute; reflexivity|].
  destruct (first_two_per_date sample_session 1 sample_df start_2020 end_2020
              sample_out (ymd 2020 3 2) filter_sample_df)
    as (canon & Hgen & Heq & _).
  exists canon. split; [exact Hgen|exact Heq].
Defined.

Lemma reconcile_idempotent_witness :
  filter_index_implied_dividend_yield sample_session 1 sample_df
    start_2020 end_2020 = Returns sample_out ∧
  filter_index_implied_dividend_yield sample_session 1 sample_out
    start_2020 end_2020 = Returns sample_out.
Proof.
  split; [vm_compute; reflexivity|].
  apply (reconcile_idempotent sample_session sample_session_near 1 sample_df
           start_2020 end_2020 sample_out).
  vm_compute. reflexivity.
Defined.

Lemma empty_range_returns_empty_witness :
  expiration_target_dates (ymd 2020 1 1) (ymd 2020 2 29) [3; 6; 9; 12] = [] ∧
  get_expiration_dates sample_session 10 (ymd 2020 1 1) (ymd 2020 2 29)
    [3; 6; 9; 12] = Returns [] ∧
  filter_index_implied_dividend_yield sample_session 10 sample_df
    (ymd 2020 1 1) (ymd 2020 2 29) = Returns [].
Proof.
  split; [vm_compute; reflexivity|].
  apply (empty_range_returns_empty sample_session 10 sample_df
           (ymd 2020 1 1) (ymd 2020 2 29)).
  vm_compute. reflexivity.
Defined.

Lemma scenario_2020_witness :
  sample_session (ymd 2020 3 20) = true ∧
  sample_session (ymd 2020 6 19) = true ∧
  sample_session (ymd 2020 9 18) = true ∧
  sample_session (ymd 2020 12 18) = true ∧
  get_expiration_dates sample_session 1 (ymd 2020 1 1) (ymd 2020 12 31)
    [3; 6; 9; 12]
    = Returns [ymd 2020 3 20; ymd 2020 6 19; ymd 2020 9 18; ymd 2020 12 18] ∧
  filter_index_implied_dividend_yield sample_session 1
    [mkRow (ymd 2020 3 2) (ymd 2020 3 21) "a";
     mkRow (ymd 2020 3 2) (ymd 2020 4 17) "b"] (ymd 2020 1 1) (ymd 2020 12 31)
    = Returns [mkRow (ymd 2020 3 2) (ymd 2020 3 20) "a"].
Proof.
  do 4 (split; [vm_compute; reflexivity|]).
  destruct (scenario_2020 sample_session 0 "a" "b"
              ltac:(vm_compute; reflexivity) ltac:(vm_compute; reflexivity)
              ltac:(vm_compute; reflexivity) ltac:(vm_compute; reflexivity))
    as (Hgen & _ & _ & Hboth).
  split; [exact Hgen|exact Hboth].
Defined.

Lemma store_run_sample :
  filter_index_implied_dividend_yield_store sample_session 1 0
    start_2020 end_2020 [sample_df]
  = Returns (3%nat, store_after).
Proof. vm_compute. reflexivity. Qed.

Lemma input_not_mutated_witness :
  [sample_df] !! 0%nat = Some sample_df ∧
  filter_index_implied_dividend_yield_store sample_session 1 0
    start_2020 end_2020 [sample_df]
  = Returns (3%nat, store_after) ∧
  store_after !! 0%nat = Some sample_df.
Proof.
  split; [reflexivity|]. split; [vm_compute; reflexivity|].
  destruct (input_not_mutated sample_session 1 0%nat start_2020 end_2020
              [sample_df] sample_df _ _ eq_refl store_run_sample)
    as [Hdf _].
  exact Hdf.
Defined.

(** * Further properties of the generator *)

Lemma seqZ_sorted m (n : nat) : StronglySorted Z.lt (seqZ m (Z.of_nat n)).
Proof.
  revert m; induction n as [|n IH]; intros m.
  - rewrite seqZ_nil by lia. constructor.
  - rewrite seqZ_cons by lia.
    replace (Z.pred (Z.of_nat (S n))) with (Z.of_nat n) by lia.
    constructor; [apply IH|].
    apply Forall_forall. intros x Hx%elem_of_seqZ. lia.
Qed.

Lemma days_between_sorted start_date end_date :
  StronglySorted Z.lt (days_between start_date end_date).
Proof.
  unfold days_between.
  destruct (decide (0 ≤ end_date - start_date + 1)) as [H|H].
  - rewrite <-(Z2Nat.id _ H). apply seqZ_sorted.
  - rewrite seqZ_nil by lia. constructor.
Qed.

(** The third Fridays to adjust come in increasing order. *)
Lemma expiration_target_dates_sorted start_date end_date months :
  StronglySorted Z.lt (expiration_target_dates start_date end_date months).
Proof.
  unfold expiration_target_dates, date_range.
  eapply StronglySorted_sublist; [apply sublist_filter|].
  eapply StronglySorted_sublist; [apply sublist_filter|].
  apply days_between_sorted.
Qed.

(** The while loop is monotone in the date it starts from. *)
Lemma shift_back_mono fuel1 fuel2 (S : gset Z) F1 F2 D1 D2 :
  F1 ≤ F2 →
  shift_back fuel1 S F1 = Returns D1 → shift_back fuel2 S F2 = Returns D2 →
  D1 ≤ D2.
Proof.
  intros HF (A1 & A2 & _)%shift_back_Returns
            (B1 & B2 & B3 & _)%shift_back_Returns.
  destruct (decide (D1 ≤ D2)) as [|Hgt]; [done|].
  exfalso. apply (B3 D1); [lia|done].
Qed.

Lemma shift_all_sorted (R : relation Z) fuel (S : gset Z) (P : Z → Prop) l c :
  (∀ F1 F2 D1 D2, P F1 → P F2 → F1 < F2 →
     shift_back fuel S F1 = Returns D1 → shift_back fuel S F2 = Returns D2 →
     R D1 D2) →
  Forall P l → StronglySorted Z.lt l →
  Forall2 (λ F D, shift_back fuel S F = Returns D) l c →
  StronglySorted R c.
Proof.
  intros HR HP Hl H. revert HP Hl.
  induction H as [|F D l c HD H IH]; intros HP Hl; [constructor|].
  apply Forall_cons in HP as [HF HP].
  apply StronglySorted_inv in Hl as [Hl HFl].
  constructor; [by apply IH|].
  clear IH Hl. revert HP HFl.
  induction H as [|F' D' l c HD' H IH]; intros HP HFl; [constructor|].
  apply Forall_cons in HP as [HF' HP]. apply Forall_cons in HFl as [Hlt HFl].
  constructor; [by apply (HR F F' D D')|by apply IH].
Qed.

Section GeneratorExtras.
Context (is_session : Z → bool).

(** X1.  The while loop returns [d] from [cur] with [fuel] iterations
    allowed exactly when [d] is the last member of the set on or before
    [cur] and fewer than [fuel] days lie between them: the loop tests
    [cur - d + 1] dates, no more and no fewer. *)
Theorem shift_back_spec fuel (S : gset Z) cur d :
  shift_back fuel S cur = Returns d ↔
  d ∈ S ∧ d ≤ cur ∧ (∀ x, d < x ≤ cur → x ∉ S) ∧ cur - d < Z.of_nat fuel.
Proof.
  split; [apply shift_back_Returns|].
  intros (? & ? & ? & ?). by apply shift_back_enough.
Qed.

(** X2.  When the generator returns, it returns one date for each third
    Friday of the range in a month asked for, in the same order: the
    last session of the range on or before that Friday. *)
Theorem generator_returns_last_sessions fuel start_date end_date months canon :
  get_expiration_dates is_session fuel start_date end_date months
    = Returns canon →
  length canon = length (expiration_target_dates start_date end_date months) ∧
  Forall2 (λ F D, start_date ≤ D ≤ F ∧ F ≤ end_date ∧ is_session D = true ∧
                  ∀ x, D < x ≤ F → start_date ≤ x → is_session x = false)
    (expiration_target_dates start_date end_date months) canon.
Proof.
  intros Hgen%get_expiration_dates_Returns.
  split; [symmetry; by eapply Forall2_length|].
  assert (Forall (λ F, F ≤ end_date)
            (expiration_target_dates start_date end_date months)) as Hall.
  { apply Forall_forall.
    intros F (_ & _ & ?)%elem_of_expiration_target_dates. lia. }
  revert Hgen Hall.
  generalize (expiration_target_dates start_date end_date months).
  intros l Hgen. induction Hgen as [|F D l c HD _ IH]; intros Hall;
    [constructor|].
  apply Forall_cons in Hall as [HF Hall]. constructor; [|by apply IH].
  apply shift_back_Returns in HD as (HDS & HDF & Hlast & _).
  apply elem_of_market_open_set in HDS as [HDr HDs].
  repeat split; try done; try lia.
  intros x Hx Hsx. destruct (is_session x) eqn:E; [|done].
  exfalso. apply (Hlast x Hx). apply elem_of_market_open_set. split; [lia|done].
Qed.

(** X3.  The generator returns exactly when every third Friday it has to
    adjust has a session of the range on or before it; then as many
    iterations as the range has days are enough, and a run that returns
    with any fuel returns the same list with that much. *)
Theorem generator_returns_iff start_date end_date months :
  ((∀ F, F ∈ expiration_target_dates start_date end_date months →
         ∃ s, start_date ≤ s ≤ F ∧ is_session s = true) ↔
   ∃ canon,
     get_expiration_dates is_session (Z.to_nat (end_date - start_date + 1))
       start_date end_date months = Returns canon) ∧
  (∀ fuel canon,
     get_expiration_dates is_session fuel start_date end_date months
       = Returns canon →
     get_expiration_dates is_session (Z.to_nat (end_date - start_date + 1))
       start_date end_date months = Returns canon).
Proof.
  assert (∀ fuel canon,
     get_expiration_dates is_session fuel start_date end_date months
       = Returns canon →
     ∀ F, F ∈ expiration_target_dates start_date end_date months →
          ∃ s, start_date ≤ s ≤ F ∧ is_session s = true) as Hback.
  { intros fuel canon Hgen%get_expiration_dates_Returns F HF.
    apply list_elem_of_lookup in HF as [i Hi].
    destruct (Forall2_lookup_l _ _ _ _ _ Hgen Hi) as (D & _ & HD).
    apply shift_back_Returns in HD as (HDS & HDF & _).
    apply elem_of_market_open_set in HDS as [HDr HDs].
    exists D. split; [lia|done]. }
  split; [split|].
  - intros Hses. apply get_expiration_dates_terminates; [done|lia].
  - intros [canon Hgen]. by eapply Hback.
  - intros fuel canon Hgen.
    pose proof (Hback _ _ Hgen) as Hses.
    apply get_expiration_dates_Returns in Hgen.
    apply get_expiration_dates_Returns.
    assert (Forall (λ F, F ≤ end_date)
              (expiration_target_dates start_date end_date months)) as Hall.
    { apply Forall_forall.
      intros F (_ & _ & ?)%elem_of_expiration_target_dates. lia. }
    revert Hgen Hall.
    generalize (expiration_target_dates start_date end_date months).
    intros l Hgen. induction Hgen as [|F D l c HD _ IH]; intros Hall;
      [constructor|].
    apply Forall_cons in Hall as [HF Hall]. constructor; [|by apply IH].
    apply shift_back_Returns in HD as (HDS & HDF & Hlast & _).
    apply shift_back_enough; [done..|].
    apply elem_of_market_open_set in HDS as [HDr HDs]. lia.
Qed.
End GeneratorExtras.

Section GeneratorOrder.
Context (is_session : Z → bool).

(** X5.  The list the generator returns is in ascending order, for every
    calendar. *)
Theorem generator_output_sorted fuel start_date end_date months canon :
  get_expiration_dates is_session fuel start_date end_date months
    = Returns canon →
  StronglySorted Z.le canon.
Proof.
  intros Hgen%get_expiration_dates_Returns.
  eapply (shift_all_sorted Z.le _ _ (λ _, True)); [|by apply Forall_true
    |apply expiration_target_dates_sorted|exact Hgen].
  intros F1 F2 D1 D2 _ _ Hlt H1 H2.
  eapply shift_back_mono; [|exact H1|exact H2]. lia.
Qed.

(** X6.  Under the assumption on the calendar the list the generator
    returns is strictly increasing (it has no date twice), each date at
    least three days after the one before. *)
Theorem generator_output_increasing fuel start_date end_date months canon :
  sessions_near_third_fridays is_session →
  get_expiration_dates is_session fuel start_date end_date months
    = Returns canon →
  StronglySorted (λ D1 D2, D1 + 3 ≤ D2) canon ∧ NoDup canon.
Proof.
  intros Hgap Hgen%get_expiration_dates_Returns.
  assert (StronglySorted (λ D1 D2, D1 + 3 ≤ D2) canon) as Hs.
  { eapply (shift_all_sorted _ _ _
              (λ F, is_third_friday F = true ∧ start_date ≤ F ≤ end_date));
      [| |apply expiration_target_dates_sorted|exact Hgen].
    - intros F1 F2 D1 D2 [HF1 Hr1] [HF2 Hr2] Hlt H1 H2.
      destruct (shift_back_near _ Hgap _ _ _ _ _ HF1 Hr1 H1) as (? & _).
      destruct (shift_back_near _ Hgap _ _ _ _ _ HF2 Hr2 H2) as (? & _).
      apply is_third_friday_spec in HF1 as [HF1 _].
      apply is_third_friday_spec in HF2 as [HF2 _].
      assert (weekday F1 = weekday F2) as Hw by congruence.
      assert (F1 ≠ F2) as Hne by lia.
      pose proof (weekday_apart F1 F2 Hw Hne). lia.
    - apply Forall_forall.
      intros F (? & _ & ?)%elem_of_expiration_target_dates. done. }
  split; [done|].
  clear Hgen. induction Hs as [|D c Hs IH HD]; constructor; [|done].
  intros Hin. eapply Forall_forall in HD; [|exact Hin]. lia.
Qed.

(** X7.  What the generator does on a range in which every third Friday
    it adjusts has a session on or before it, under the assumption on
    the calendar: given as many iterations as the range has days it
    returns one date for each third Friday of the range in a month asked
    for, a session at most four days before that Friday, in the same
    month of the same year. *)
Theorem generator_adjusts_within_four_days fuel start_date end_date months :
  sessions_near_third_fridays is_session →
  (∀ F, F ∈ expiration_target_dates start_date end_date months →
        ∃ s, start_date ≤ s ≤ F ∧ is_session s = true) →
  end_date - start_date < Z.of_nat fuel →
  ∃ canon,
    get_expiration_dates is_session fuel start_date end_date months
      = Returns canon ∧
    Forall2 (λ F D, F - 4 ≤ D ≤ F ∧ is_session D = true ∧
                    month_of D = month_of F ∧ year_of D = year_of F)
      (expiration_target_dates start_date end_date months) canon.
Proof. intros Hgap. by apply get_expiration_dates_adjusts. Qed.
End GeneratorOrder.

(** * Further properties of the reconciler *)

Lemma filter_all {A} (P : A → Prop) `{!∀ x, Decision (P x)} (l : list A) :
  (∀ x, x ∈ l → P x) → filter P l = l.
Proof.
  induction l as [|x l IH]; intros Hall; [done|].
  rewrite filter_cons, decide_True by (apply Hall; left).
  f_equal. apply IH. intros y Hy. apply Hall. by right.
Qed.

Section HeadExtras.
Context {Other : Type}.
Implicit Types (df a b : list (Row Other)) (r : Row Other) (seen : Z → nat).

(** [head] looks at [seen] only at the dates of the table, and only up
    to [n]. *)
Lemma head_from_ext_on n seen1 seen2 df :
  (∀ r, r ∈ df → (seen1 (date r) `min` n = seen2 (date r) `min` n)%nat) →
  head_from n seen1 df = head_from n seen2 df.
Proof.
  revert seen1 seen2; induction df as [|r df IH]; intros seen1 seen2 H;
    cbn [head_from]; [done|].
  pose proof (H r ltac:(left)) as Hr.
  rewrite (IH (λ d, if decide (d = date r) then S (seen1 d) else seen1 d)
              (λ d, if decide (d = date r) then S (seen2 d) else seen2 d)).
  - destruct (decide (seen1 (date r) < n)%nat),
             (decide (seen2 (date r) < n)%nat); done || lia.
  - intros r' Hr'. pose proof (H r' ltac:(by right)).
    cbn beta. case_decide as E; [rewrite E in *; lia|done].
Qed.

Lemma head_from_app n seen a b :
  head_from n seen (a ++ b) =
  head_from n seen a ++
  head_from n (λ d, seen d + length (filter (λ r, date r = d) a))%nat b.
Proof.
  revert seen; induction a as [|r a IH]; intros seen.
  - cbn [app head_from]. apply head_from_ext_on. intros r _.
    rewrite filter_nil. simpl. by rewrite Nat.add_0_r.
  - rewrite <-app_comm_cons. cbn [head_from]. rewrite IH.
    assert (head_from n
              (λ d, (if decide (d = date r) then S (seen d) else seen d) +
                    length (filter (λ r0, date r0 = d) a))%nat b =
            head_from n
              (λ d, seen d + length (filter (λ r0, date r0 = d) (r :: a)))%nat
              b) as ->.
    { apply head_from_ext_on. intros r' _. cbn beta.
      rewrite filter_cons.
      destruct (decide (date r' = date r)) as [E|E].
      - rewrite decide_True by done. cbn [length]. lia.
      - rewrite decide_False by done. done. }
    by case_decide.
Qed.

(** A table with at most [n] rows of each date, those seen counted in,
    is unchanged. *)
Lemma head_from_fixed n seen df :
  (∀ d, seen d + length (filter (λ r, date r = d) df) ≤ n)%nat →
  head_from n seen df = df.
Proof.
  revert seen; induction df as [|r df IH]; intros seen H; cbn [head_from];
    [done|].
  pose proof (H (date r)) as Hr. rewrite filter_cons, decide_True in Hr by done.
  simpl in Hr. rewrite decide_True by lia. f_equal.
  apply IH. intros d. specialize (H d). rewrite filter_cons in H.
  destruct (decide (d = date r)) as [->|E].
  - rewrite decide_True in H by done. simpl in H. lia.
  - rewrite decide_False in H by done. done.
Qed.

(** On rows of one date [head] is [take]. *)
Lemma groupby_head_same_date n df d :
  (∀ r, r ∈ df → date r = d) → groupby_head n df = take n df.
Proof.
  intros H.
  rewrite <-(filter_all (λ r, date r = d) (groupby_head n df)).
  - rewrite groupby_head_filter. by rewrite filter_all.
  - intros r Hr. apply H. eapply elem_of_sublist; [done|].
    apply groupby_head_sublist.
Qed.

Lemma replace_column_app canon a b :
  replace_column canon (a ++ b) =
  replace_column canon a ++ replace_column canon b.
Proof. unfold replace_column. apply fmap_app. Qed.

Lemma isin_column_app canon a b :
  isin_column canon (a ++ b) = isin_column canon a ++ isin_column canon b.
Proof. unfold isin_column. apply filter_app. Qed.

Lemma elem_of_candidates canon df r :
  r ∈ isin_column canon (replace_column canon df) →
  ∃ r0, r0 ∈ df ∧ date r = date r0.
Proof.
  unfold isin_column, replace_column.
  intros [_ Hr]%list_elem_of_filter.
  apply list_elem_of_fmap in Hr as (r0 & -> & Hr0). by exists r0.
Qed.

(** The reconciler treats each observation date on its own. *)
Lemma reconcile_with_filter_date canon df d :
  reconcile_with canon (filter (λ r, date r = d) df) =
  filter (λ r, date r = d) (reconcile_with canon df).
Proof.
  unfold reconcile_with. rewrite groupby_head_filter.
  rewrite <-filter_date_replace_column, <-filter_date_isin_column.
  apply (groupby_head_same_date _ _ d).
  by intros r [? _]%list_elem_of_filter.
Qed.

(** The output for a table is the start of the output for a longer one. *)
Lemma reconcile_with_app canon a b :
  ∃ tail, reconcile_with canon (a ++ b) = reconcile_with canon a ++ tail.
Proof.
  unfold reconcile_with, groupby_head.
  rewrite replace_column_app, isin_column_app, head_from_app. by eexists.
Qed.

Lemma reconcile_with_app_disjoint canon a b :
  (∀ ra rb, ra ∈ a → rb ∈ b → date ra ≠ date rb) →
  reconcile_with canon (a ++ b) =
  reconcile_with canon a ++ reconcile_with canon b.
Proof.
  intros Hdis. unfold reconcile_with, groupby_head.
  rewrite replace_column_app, isin_column_app, head_from_app. f_equal.
  apply head_from_ext_on. intros rb (rb0 & Hrb0 & Hd)%elem_of_candidates.
  rewrite (proj2 (length_zero_iff_nil _)); [done|].
  destruct (filter _ _) as [|ra l] eqn:E; [done|exfalso].
  assert (ra ∈ filter (λ r0, date r0 = date rb)
                 (isin_column canon (replace_column canon a))) as Hra
    by (rewrite E; left).
  apply list_elem_of_filter in Hra as [Hda (ra0 & Hra0 & Hd')%elem_of_candidates].
  apply (Hdis ra0 rb0 Hra0 Hrb0). congruence.
Qed.
End HeadExtras.

Section ReconcilerExtras.
Context (is_session : Z → bool) {Other : Type}.
Implicit Types (df out a b : list (Row Other)) (r : Row Other).

Local Notation "'quarterly'" := [3; 6; 9; 12].

Lemma reconcile_unfold fuel df start_date end_date canon :
  get_expiration_dates is_session fuel start_date end_date quarterly
    = Returns canon →
  filter_index_implied_dividend_yield is_session fuel df start_date end_date = Returns (reconcile_with canon df).
Proof. intros H. unfold filter_index_implied_dividend_yield. by rewrite H. Qed.

(** X8.  Each observation date is reconciled on its own: the output for
    the rows of one date is the part of the output with that date. *)
Theorem reconcile_per_date fuel df start_date end_date out d :
  filter_index_implied_dividend_yield is_session fuel df start_date end_date = Returns out →
  filter_index_implied_dividend_yield is_session fuel (filter (λ r, date r = d) df) start_date end_date
    = Returns (filter (λ r, date r = d) out).
Proof.
  intros (canon & Hgen & ->)%filter_index_Returns.
  rewrite (reconcile_unfold _ _ _ _ _ Hgen).
  by rewrite reconcile_with_filter_date.
Qed.

(** X9.  The tables the reconciler returns unchanged are, under the
    assumption on the calendar, exactly those with canonical expirations
    only and at most two rows for each observation date. *)
Theorem reconcile_fixed_points fuel df start_date end_date canon :
  sessions_near_third_fridays is_session →
  get_expiration_dates is_session fuel start_date end_date quarterly
    = Returns canon →
  (filter_index_implied_dividend_yield is_session fuel df start_date end_date = Returns df ↔
   (∀ r, r ∈ df → expiration r ∈ canon) ∧
   (∀ d, length (filter (λ r, date r = d) df) ≤ 2)%nat).
Proof.
  intros Hgap Hgen. rewrite (reconcile_unfold _ _ _ _ _ Hgen). split.
  - intros [= Heq]. split.
    + intros r Hr. rewrite <-Heq in Hr. by eapply reconcile_with_elem.
    + intros d. rewrite <-Heq at 1. unfold reconcile_with.
      rewrite groupby_head_filter, length_take. lia.
  - intros [Hcanon Hcount]. f_equal. unfold reconcile_with.
    rewrite replace_column_id.
    + rewrite isin_column_all by done. apply head_from_fixed.
      intros d. specialize (Hcount d). lia.
    + intros r Hr. eapply canonical_not_adjacent; [done..|]. by apply Hcanon.
Qed.

(** X10.  The two encodings of an expiration give the same output: two
    tables that agree row by row except that one may hold the day after
    a canonical date where the other holds the canonical date are
    reconciled to the same table (under the assumption on the
    calendar). *)
Theorem reconcile_encoding_independent fuel df1 df2 start_date end_date canon :
  sessions_near_third_fridays is_session →
  get_expiration_dates is_session fuel start_date end_date quarterly
    = Returns canon →
  Forall2 (λ r1 r2 : Row Other,
             date r1 = date r2 ∧ other r1 = other r2 ∧
             (expiration r1 = expiration r2 ∨
              (expiration r1 ∈ canon ∧ expiration r2 = expiration r1 + 1) ∨
              (expiration r2 ∈ canon ∧ expiration r1 = expiration r2 + 1)))
    df1 df2 →
  filter_index_implied_dividend_yield is_session fuel df1 start_date end_date
  = filter_index_implied_dividend_yield is_session fuel df2 start_date end_date.
Proof.
  intros Hgap Hgen H. rewrite !(reconcile_unfold _ _ _ _ _ Hgen). f_equal.
  unfold reconcile_with. do 2 f_equal. unfold replace_column.
  induction H as [|r1 r2 l1 l2 (Hd & Ho & He) _ IH]; [done|].
  rewrite !fmap_cons, IH. f_equal.
  unfold replace_expiration. rewrite Hd, Ho. f_equal.
  rewrite !replace_value_remap.
  destruct He as [->|[[Hc ->]|[Hc ->]]]; [done| |].
  - pose proof (canonical_not_adjacent _ Hgap _ _ _ _ _ _ Hgen Hc).
    rewrite decide_False by done.
    replace (expiration r1 + 1 - 1) with (expiration r1) by lia.
    by rewrite decide_True.
  - pose proof (canonical_not_adjacent _ Hgap _ _ _ _ _ _ Hgen Hc).
    rewrite (decide_False (P := expiration r2 - 1 ∈ canon)) by done.
    replace (expiration r2 + 1 - 1) with (expiration r2) by lia.
    by rewrite decide_True.
Qed.

(** X11.  When every input row expires after its observation date, no
    output row expires before its observation date. *)
Theorem reconcile_expiration_not_before_date fuel df start_date end_date out :
  filter_index_implied_dividend_yield is_session fuel df start_date end_date = Returns out →
  (∀ r, r ∈ df → date r < expiration r) →
  ∀ r, r ∈ out → date r ≤ expiration r.
Proof.
  intros (canon & Hgen & ->)%filter_index_Returns Hdf r Hr.
  destruct (reconcile_with_kept canon df) as (kept & Hk & Heq).
  rewrite Heq in Hr. apply list_elem_of_fmap in Hr as (r0 & -> & Hr0).
  apply (elem_of_sublist _ _ _ Hr0) in Hk. apply Hdf in Hk.
  simpl. rewrite replace_value_remap. case_decide; lia.
Qed.

(** X12.  The output keeps the order by observation date: when the input
    is in ascending order of date, as the query returns it, so is the
    output. *)
Theorem reconcile_sorted_by_date fuel df start_date end_date out :
  filter_index_implied_dividend_yield is_session fuel df start_date end_date = Returns out →
  StronglySorted Z.le (date <$> df) →
  StronglySorted Z.le (date <$> out).
Proof.
  intros (canon & Hgen & ->)%filter_index_Returns Hs.
  destruct (reconcile_with_kept canon df) as (kept & Hk & ->).
  rewrite <-list_fmap_compose.
  eapply StronglySorted_sublist; [|exact Hs].
  change (date ∘ replace_expiration
            (dict_of_pairs (potential_expiration_dates canon)))
    with (@date Other).
  by apply fmap_sublist.
Qed.

(** X13.  Rows added at the end of the input never change the output
    already produced: the output for a table is the start of the output
    for the table with more rows after it. *)
Theorem reconcile_prefix fuel a b start_date end_date out :
  filter_index_implied_dividend_yield is_session fuel a start_date end_date = Returns out →
  ∃ tail,
    filter_index_implied_dividend_yield is_session fuel (a ++ b) start_date end_date = Returns (out ++ tail).
Proof.
  intros (canon & Hgen & ->)%filter_index_Returns.
  destruct (reconcile_with_app canon a b) as [tail Ht].
  exists tail. rewrite (reconcile_unfold _ _ _ _ _ Hgen). by rewrite Ht.
Qed.

(** X14.  Two tables without an observation date in common are
    reconciled separately: the output for one followed by the other is
    the two outputs one after the other. *)
Theorem reconcile_app_disjoint_dates fuel a b start_date end_date outa outb :
  (∀ ra rb, ra ∈ a → rb ∈ b → date ra ≠ date rb) →
  filter_index_implied_dividend_yield is_session fuel a start_date end_date = Returns outa →
  filter_index_implied_dividend_yield is_session fuel b start_date end_date = Returns outb →
  filter_index_implied_dividend_yield is_session fuel (a ++ b) start_date end_date = Returns (outa ++ outb).
Proof.
  intros Hdis (canon & Hgen & ->)%filter_index_Returns Hb.
  rewrite (reconcile_unfold _ _ _ _ _ Hgen) in Hb. injection Hb as <-.
  rewrite (reconcile_unfold _ _ _ _ _ Hgen).
  by rewrite reconcile_with_app_disjoint.
Qed.

(** X15.  A row whose expiration is neither a canonical date nor the day
    after one has no effect: the output is the same with the row and
    without it, wherever it stands in the table. *)
Theorem reconcile_ignores_other_expirations fuel a b r start_date end_date
    canon :
  get_expiration_dates is_session fuel start_date end_date quarterly
    = Returns canon →
  expiration r ∉ canon → expiration r - 1 ∉ canon →
  filter_index_implied_dividend_yield is_session fuel (a ++ r :: b) start_date end_date
  = filter_index_implied_dividend_yield is_session fuel (a ++ b) start_date end_date.
Proof.
  intros Hgen H0 H1. rewrite !(reconcile_unfold _ _ _ _ _ Hgen). f_equal.
  unfold reconcile_with. f_equal.
  rewrite !replace_column_app, !isin_column_app. f_equal.
  unfold replace_column, isin_column. rewrite fmap_cons, filter_cons.
  rewrite decide_False; [done|].
  simpl. rewrite replace_value_remap. by rewrite decide_False.
Qed.
End ReconcilerExtras.

(** ** The further properties at the sample inputs *)

Ltac not_in_dates :=
  unfold canon_2020; ymd_eval; rewrite !not_elem_of_cons;
  repeat split; first [lia | apply not_elem_of_nil].

Ltac in_dates := unfold canon_2020; repeat constructor.

Lemma generator_returns_last_sessions_witness :
  get_expiration_dates sample_session 1 start_2020 end_2020 [3; 6; 9; 12]
    = Returns canon_2020 ∧
  length canon_2020 =
  length (expiration_target_dates start_2020 end_2020 [3; 6; 9; 12]).
Proof.
  split; [vm_compute; reflexivity|].
  apply (generator_returns_last_sessions sample_session 1 start_2020 end_2020
           [3; 6; 9; 12] canon_2020).
  vm_compute. reflexivity.
Defined.

Lemma generator_output_sorted_witness :
  get_expiration_dates sample_session 1 start_2020 end_2020 [3; 6; 9; 12]
    = Returns canon_2020 ∧
  StronglySorted Z.le canon_2020.
Proof.
  split; [vm_compute; reflexivity|].
  apply (generator_output_sorted sample_session 1 start_2020 end_2020
           [3; 6; 9; 12] canon_2020).
  vm_compute. reflexivity.
Defined.

Lemma generator_output_increasing_witness :
  get_expiration_dates sample_session 1 start_2020 end_2020 [3; 6; 9; 12]
    = Returns canon_2020 ∧
  NoDup canon_2020.
Proof.
  split; [vm_compute; reflexivity|].
  apply (generator_output_increasing sample_session 1 start_2020 end_2020
           [3; 6; 9; 12] canon_2020 sample_session_near).
  vm_compute. reflexivity.
Defined.

Lemma sample_sessions_2020 F :
  F ∈ expiration_target_dates start_2020 end_2020 [3; 6; 9; 12] →
  ∃ s, start_2020 ≤ s ≤ F ∧ sample_session s = true.
Proof.
  rewrite expiration_target_dates_2020. unfold canon_2020. intros HF.
  exists F.
  repeat (apply elem_of_cons in HF as [->|HF];
          [split; [unfold start_2020; ymd_eval; lia|by vm_compute]|]).
  by apply elem_of_nil in HF.
Qed.

Lemma generator_adjusts_within_four_days_witness :
  end_2020 - start_2020 < Z.of_nat 400 ∧
  ∃ canon,
    get_expiration_dates sample_session 400 start_2020 end_2020 [3; 6; 9; 12]
      = Returns canon ∧
    Forall2 (λ F D, F - 4 ≤ D ≤ F ∧ sample_session D = true ∧
                    month_of D = month_of F ∧ year_of D = year_of F)
      (expiration_target_dates start_2020 end_2020 [3; 6; 9; 12]) canon.
Proof.
  assert (end_2020 - start_2020 < Z.of_nat 400) as Hfuel by by vm_compute.
  split; [exact Hfuel|].
  exact (generator_adjusts_within_four_days sample_session 400 start_2020
           end_2020 [3; 6; 9; 12] sample_session_near sample_sessions_2020
           Hfuel).
Defined.

Lemma reconcile_per_date_witness :
  filter_index_implied_dividend_yield sample_session 1 sample_df
    start_2020 end_2020 = Returns sample_out ∧
  filter_index_implied_dividend_yield sample_session 1
    (filter (λ r, date r = ymd 2020 3 2) sample_df) start_2020 end_2020
  = Returns (filter (λ r, date r = ymd 2020 3 2) sample_out).
Proof.
  split; [vm_compute; reflexivity|].
  apply (reconcile_per_date sample_session 1 sample_df start_2020 end_2020
           sample_out (ymd 2020 3 2)).
  vm_compute. reflexivity.
Defined.

Lemma reconcile_fixed_points_witness :
  filter_index_implied_dividend_yield sample_session 1 sample_out
    start_2020 end_2020 = Returns sample_out ∧
  (length (filter (λ r, date r = ymd 2020 3 2) sample_out) ≤ 2)%nat.
Proof.
  assert (filter_index_implied_dividend_yield sample_session 1 sample_out
            start_2020 end_2020 = Returns sample_out) as Hfix
    by (vm_compute; reflexivity).
  split; [exact Hfix|].
  apply (proj1 (reconcile_fixed_points sample_session 1 sample_out
                  start_2020 end_2020 canon_2020 sample_session_near
                  get_expiration_dates_sample_2020) Hfix).
Defined.

Lemma reconcile_encoding_independent_witness :
  filter_index_implied_dividend_yield sample_session 1 sample_df
    start_2020 end_2020
  = filter_index_implied_dividend_yield sample_session 1
      [ mkRow (ymd 2020 3 2) (ymd 2020 3 20) "a";
        mkRow (ymd 2020 3 2) (ymd 2020 4 17) "b";
        mkRow (ymd 2020 3 2) (ymd 2020 6 19) "c";
        mkRow (ymd 2020 3 2) (ymd 2020 9 18) "d";
        mkRow (ymd 2020 3 3) (ymd 2020 3 21) "e" ]
      start_2020 end_2020.
Proof.
  apply (reconcile_encoding_independent sample_session 1 _ _ start_2020
           end_2020 canon_2020 sample_session_near
           get_expiration_dates_sample_2020).
  unfold sample_df.
  repeat (constructor; [split; [reflexivity|split; [reflexivity|]]|]);
    first [ left; reflexivity
          | right; left; split; [in_dates|by vm_compute]
          | right; right; split; [in_dates|by vm_compute] ].
Defined.

Lemma sample_df_expires_later r : r ∈ sample_df → date r < expiration r.
Proof.
  unfold sample_df. intros Hr.
  repeat (apply elem_of_cons in Hr as [->|Hr]; [by vm_compute|]).
  by apply elem_of_nil in Hr.
Qed.

Lemma reconcile_expiration_not_before_date_witness :
  filter_index_implied_dividend_yield sample_session 1 sample_df
    start_2020 end_2020 = Returns sample_out ∧
  date (mkRow (ymd 2020 3 2) (ymd 2020 3 20) "a")
  ≤ expiration (mkRow (ymd 2020 3 2) (ymd 2020 3 20) "a").
Proof.
  split; [vm_compute; reflexivity|].
  apply (reconcile_expiration_not_before_date sample_session 1 sample_df
           start_2020 end_2020 sample_out filter_sample_df
           sample_df_expires_later).
  left.
Defined.

Lemma reconcile_sorted_by_date_witness :
  StronglySorted Z.le (date <$> sample_df) ∧
  StronglySorted Z.le (date <$> sample_out).
Proof.
  assert (StronglySorted Z.le (date <$> sample_df)) as Hs.
  { unfold sample_df. repeat constructor; by vm_compute. }
  split; [exact Hs|].
  exact (reconcile_sorted_by_date sample_session 1 sample_df start_2020
           end_2020 sample_out filter_sample_df Hs).
Defined.

Lemma reconcile_prefix_witness :
  filter_index_implied_dividend_yield sample_session 1 unsorted_df
    start_2020 end_2020 = Returns unsorted_df ∧
  ∃ tail,
    filter_index_implied_dividend_yield sample_session 1
      (unsorted_df ++ sample_df) start_2020 end_2020
    = Returns (unsorted_df ++ tail).
Proof.
  split; [vm_compute; reflexivity|].
  apply (reconcile_prefix sample_session 1 unsorted_df sample_df
           start_2020 end_2020 unsorted_df).
  vm_compute. reflexivity.
Defined.

Lemma reconcile_app_disjoint_dates_witness :
  filter_index_implied_dividend_yield sample_session 1
    (unsorted_df ++ [mkRow (ymd 2020 3 3) (ymd 2020 3 21) "f"])
    start_2020 end_2020
  = Returns (unsorted_df ++ [mkRow (ymd 2020 3 3) (ymd 2020 3 20) "f"]).
Proof.
  apply (reconcile_app_disjoint_dates sample_session 1 unsorted_df
           [mkRow (ymd 2020 3 3) (ymd 2020 3 21) "f"] start_2020 end_2020).
  - unfold unsorted_df. intros ra rb Ha Hb.
    apply list_elem_of_singleton in Hb as ->.
    repeat (apply elem_of_cons in Ha as [->|Ha]; [by vm_compute|]).
    by apply elem_of_nil in Ha.
  - vm_compute. reflexivity.
  - vm_compute. reflexivity.
Defined.

Lemma reconcile_ignores_other_expirations_witness :
  filter_index_implied_dividend_yield sample_session 1 sample_df
    start_2020 end_2020
  = filter_index_implied_dividend_yield sample_session 1
      [ mkRow (ymd 2020 3 2) (ymd 2020 3 21) "a";
        mkRow (ymd 2020 3 2) (ymd 2020 6 19) "c";
        mkRow (ymd 2020 3 2) (ymd 2020 9 18) "d";
        mkRow (ymd 2020 3 3) (ymd 2020 3 20) "e" ]
      start_2020 end_2020.
Proof.
  apply (reconcile_ignores_other_expirations sample_session 1
           [mkRow (ymd 2020 3 2) (ymd 2020 3 21) "a"]
           [ mkRow (ymd 2020 3 2) (ymd 2020 6 19) "c";
             mkRow (ymd 2020 3 2) (ymd 2020 9 18) "d";
             mkRow (ymd 2020 3 3) (ymd 2020 3 20) "e" ]
           (mkRow (ymd 2020 3 2) (ymd 2020 4 17) "b")
           start_2020 end_2020 canon_2020 get_expiration_dates_sample_2020).
  - cbn [expiration]. not_in_dates.
  - cbn [expiration]. not_in_dates.
Defined.

(** * Extending the range at its end *)

Lemma Forall2_impl_Forall {A B} (P : A → Prop) (R Q : A → B → Prop) l k :
  Forall P l → Forall2 R l k → (∀ x y, P x → R x y → Q x y) → Forall2 Q l k.
Proof.
  intros HP HR HQ. revert HP.
  induction HR as [|x y l k Hxy _ IH]; intros HP; [constructor|].
  apply Forall_cons in HP as [Hx HP]. constructor; [by apply HQ|by apply IH].
Qed.

(** The while loop looks at the set only on or before the date it starts
    from. *)
Lemma shift_back_ext fuel (S1 S2 : gset Z) cur :
  (∀ x, x ≤ cur → x ∈ S1 ↔ x ∈ S2) →
  shift_back fuel S1 cur = shift_back fuel S2 cur.
Proof.
  revert cur; induction fuel as [|fuel IH]; intros cur H; simpl; [done|].
  destruct (decide (cur ∈ S1)) as [H1|H1], (decide (cur ∈ S2)) as [H2|H2];
    [done| | |].
  - exfalso. apply H2, H; [lia|done].
  - exfalso. apply H1, H; [lia|done].
  - apply IH. intros x Hx. apply H. lia.
Qed.

Lemma expiration_target_dates_extend start_date end1 end2 months :
  end1 ≤ end2 →
  ∃ more,
    expiration_target_dates start_date end2 months =
    expiration_target_dates start_date end1 months ++ more.
Proof.
  intros Hle. unfold expiration_target_dates, date_range, days_between.
  destruct (decide (0 ≤ end1 - start_date + 1)) as [H|H].
  - replace (end2 - start_date + 1)
      with ((end1 - start_date + 1) + (end2 - end1)) by lia.
    rewrite seqZ_app by lia. rewrite !filter_app. by eexists.
  - rewrite (seqZ_nil _ (end1 - start_date + 1)) by lia.
    rewrite !filter_nil. by eexists.
Qed.

Section GeneratorRange.
Context (is_session : Z → bool).

(** X16.  Moving the end of the range later only adds dates at the end
    of the list: when the generator returns for the longer range, it
    returns for the shorter range with the same start, and that list is
    the start of the list for the longer range. *)
Theorem generator_extend_end fuel start_date end1 end2 months canon2 :
  end1 ≤ end2 →
  get_expiration_dates is_session fuel start_date end2 months
    = Returns canon2 →
  ∃ canon1,
    get_expiration_dates is_session fuel start_date end1 months
      = Returns canon1 ∧
    canon1 `prefix_of` canon2.
Proof.
  intros Hle Hgen%get_expiration_dates_Returns.
  destruct (expiration_target_dates_extend start_date end1 end2 months Hle)
    as [more Hmore].
  rewrite Hmore in Hgen.
  apply Forall2_app_inv_l in Hgen as (c1 & c2 & H1 & _ & ->).
  exists c1. split; [|by apply prefix_app_r].
  apply get_expiration_dates_Returns.
  eapply (Forall2_impl_Forall (λ F, F ≤ end1)); [|exact H1|].
  - apply Forall_forall.
    intros F (_ & _ & ?)%elem_of_expiration_target_dates. lia.
  - intros F D HF HD. cbn beta in HD. rewrite <-HD.
    apply shift_back_ext. intros x Hx.
    rewrite !elem_of_market_open_set. split; intros [? ?]; (split; [lia|done]).
Qed.
End GeneratorRange.

Lemma generator_extend_end_witness :
  ymd 2020 6 30 ≤ end_2020 ∧
  ∃ canon1,
    get_expiration_dates sample_session 1 start_2020 (ymd 2020 6 30)
      [3; 6; 9; 12] = Returns canon1 ∧
    canon1 `prefix_of` canon_2020.
Proof.
  assert (ymd 2020 6 30 ≤ end_2020) as Hle by by vm_compute.
  split; [exact Hle|].
  exact (generator_extend_end sample_session 1 start_2020 (ymd 2020 6 30)
           end_2020 [3; 6; 9; 12] canon_2020 Hle
           get_expiration_dates_sample_2020).
Defined.

(** * The generator and the reconciler with their effects *)

(** ** The while loop with the range of Timestamp *)

Lemma shift_back_io_Returns fuel (S : gset Z) cur d :
  (shift_back_io fuel S cur).1 = Returns d → shift_back fuel S cur = Returns d.
Proof.
  revert cur; induction fuel as [|fuel IH]; intros cur; simpl; [done|].
  case_decide; [done|]. case_decide; [done|].
  destruct (shift_back_io fuel S (cur - 1)) as [o p] eqn:E. simpl.
  intros ->. apply IH. by rewrite E.
Qed.

(** On a set of dates that a Timestamp holds, the loop returns what
    [shift_back] returns. *)
Lemma shift_back_io_of_pure fuel (S : gset Z) cur d :
  (∀ x, x ∈ S → timestamp_min ≤ x) →
  shift_back fuel S cur = Returns d → (shift_back_io fuel S cur).1 = Returns d.
Proof.
  intros HS. revert cur; induction fuel as [|fuel IH]; intros cur; simpl;
    [done|].
  case_decide as Hc; [done|]. intros Hs.
  pose proof (shift_back_Returns _ _ _ _ Hs) as (Hd & Hle & _).
  apply HS in Hd. rewrite decide_False by lia.
  apply IH in Hs.
  destruct (shift_back_io fuel S (cur - 1)) as [o p]. done.
Qed.





(** ** The for loop *)

Lemma adjust_each_io_shift_all_io fuel (S : gset Z) pre suf :
  adjust_each_io fuel S (seq (length pre) (length suf)) (pre ++ suf) =
  ((suf' ←' (shift_all_io fuel S suf).1; Returns (pre ++ suf')),
   (shift_all_io fuel S suf).2).
Proof.
  revert pre; induction suf as [|F suf IH]; intros pre; simpl.
  - by rewrite app_nil_r.
  - rewrite list_lookup_middle by done.
    destruct (shift_back_io fuel S F) as [[D|e|] p]; simpl; [|done..].
    rewrite (insert_app_r_alt pre) by lia.
    rewrite Nat.sub_diag. simpl.
    replace (pre ++ D :: suf) with ((pre ++ [D]) ++ suf)
      by by rewrite <-app_assoc.
    replace (Datatypes.S (length pre)) with (length (pre ++ [D]))
      by (rewrite length_app; simpl; lia).
    rewrite IH.
    destruct (shift_all_io fuel S suf) as [[c|e|] p']; simpl; [|done..].
    by rewrite <-app_assoc.
Qed.

Lemma shift_all_io_Returns fuel (S : gset Z) l c :
  (shift_all_io fuel S l).1 = Returns c → shift_all fuel S l = Returns c.
Proof.
  revert c; induction l as [|F l IH]; intros c; simpl; [done|].
  destruct (shift_back_io fuel S F) as [[D|e|] p] eqn:E; simpl; [|done..].
  assert (shift_back fuel S F = Returns D) as ->
    by (apply shift_back_io_Returns; by rewrite E).
  simpl.
  destruct (shift_all_io fuel S l) as [[c'|e|] p']; simpl; [|done..].
  intros [= <-]. by rewrite (IH c').
Qed.

Lemma shift_all_io_of_pure fuel (S : gset Z) l c :
  (∀ x, x ∈ S → timestamp_min ≤ x) →
  shift_all fuel S l = Returns c → (shift_all_io fuel S l).1 = Returns c.
Proof.
  intros HS. revert c; induction l as [|F l IH]; intros c; simpl; [done|].
  destruct (shift_back fuel S F) as [D| |] eqn:E; simpl; [|done..].
  apply (shift_back_io_of_pure _ _ _ _ HS) in E.
  destruct (shift_back_io fuel S F) as [o p]. simpl in E. subst o.
  destruct (shift_all fuel S l) as [c'| |]; simpl; [|done..].
  intros [= <-]. specialize (IH c' eq_refl).
  destruct (shift_all_io fuel S l) as [o' p']. simpl in IH. by subst o'.
Qed.



(** ** The generator *)

Section GeneratorEffects.
Context (is_session : Z → bool).

Lemma get_expiration_dates_io_shift_all_io fuel start_date end_date months :
  get_expiration_dates_io is_session fuel start_date end_date months =
  shift_all_io fuel (market_open_set is_session start_date end_date)
    (expiration_target_dates start_date end_date months).
Proof.
  unfold get_expiration_dates_io.
  rewrite (adjust_each_io_shift_all_io fuel _ []). simpl.
  by destruct (shift_all_io _ _ _) as [[c|e|] p].
Qed.

(** For a range that starts at a date a Timestamp holds, the generator
    with its effects returns the lists [get_expiration_dates] returns. *)
Lemma get_expiration_dates_io_Returns fuel start_date end_date months canon :
  timestamp_min ≤ start_date →
  (get_expiration_dates_io is_session fuel start_date end_date months).1
    = Returns canon ↔
  get_expiration_dates is_session fuel start_date end_date months
    = Returns canon.
Proof.
  intros Hs. rewrite get_expiration_dates_io_shift_all_io,
    get_expiration_dates_shift_all. split.
  - apply shift_all_io_Returns.
  - apply shift_all_io_of_pure.
    intros x [Hx _]%elem_of_market_open_set. lia.
Qed.

Lemma get_expiration_dates_io_never_Returns fuel start_date end_date months
    canon :
  (∀ fuel' canon',
     get_expiration_dates is_session fuel' start_date end_date months
       ≠ Returns canon') →
  (get_expiration_dates_io is_session fuel start_date end_date months).1
    ≠ Returns canon.
Proof.
  intros H Hio. apply (H fuel canon).
  rewrite get_expiration_dates_io_shift_all_io in Hio.
  rewrite get_expiration_dates_shift_all. by apply shift_all_io_Returns.
Qed.


End GeneratorEffects.

(** ** The reconciler on the world *)

Section ReconcilerEffects.
Context (is_session : Z → bool) {Other : Type}.
Implicit Types (w : World Other) (rows : list (Row Other)).

(** A run that returns appends what it printed to the output and three
    objects to the store: the copy (then rewritten), the filtered table
    and the result. *)
Lemma world_run fuel df start_date end_date w canon printed :
  get_expiration_dates_io is_session fuel start_date end_date [3; 6; 9; 12]
    = (Returns canon, printed) →
  filter_index_implied_dividend_yield_io is_session fuel df
    start_date end_date w
  = (Returns (S (S (length (objects w)))),
     mkWorld (stdout w ++ printed)
       (objects w ++
        [ replace_column canon (contents (objects w) df);
          isin_column canon (replace_column canon (contents (objects w) df));
          reconcile_with canon (contents (objects w) df) ])).
Proof.
  intros Hgen. unfold filter_index_implied_dividend_yield_io, new_object.
  rewrite Hgen.
  assert (∀ (l : list (list (Row Other))) x, contents (l ++ [x]) (length l) = x)
    as Hlast.
  { intros l x. unfold contents. by rewrite list_lookup_middle. }
  rewrite Hlast.
  rewrite (insert_app_r_alt (objects w)) by lia.
  rewrite Nat.sub_diag. cbn [insert list_insert].
  rewrite Hlast.
  rewrite !length_app. cbn [length].
  replace (length (objects w) + 1)%nat
    with (length (objects w ++
                  [replace_column canon (contents (objects w) df)]))
    by (rewrite length_app; simpl; lia).
  rewrite Hlast.
  rewrite !length_app. cbn [length].
  f_equal; [f_equal; lia|]. f_equal. by rewrite <-!app_assoc.
Qed.

Lemma world_run_Returns fuel df start_date end_date w res w' :
  filter_index_implied_dividend_yield_io is_session fuel df
    start_date end_date w = (Returns res, w') →
  ∃ canon printed,
    get_expiration_dates_io is_session fuel start_date end_date [3; 6; 9; 12]
      = (Returns canon, printed).
Proof.
  unfold filter_index_implied_dividend_yield_io, new_object.
  destruct (get_expiration_dates_io _ _ _ _ _) as [[canon|e|] p];
    [by eexists _, _|done..].
Qed.

(** C9.  Determinism.  A call on a table of the store that returns is
    followed by a second call on the same table, with the same range and
    calendar, in the world the first call left: more lines on the
    output, more objects in the store.  The second call returns too, a
    new object with the same rows as the first result; it prints the
    same lines again, and the first result and the input table are as
    they were. *)
Theorem reconcile_deterministic fuel df start_date end_date w rows res1 w1 :
  objects w !! df = Some rows →
  filter_index_implied_dividend_yield_io is_session fuel df
    start_date end_date w = (Returns res1, w1) →
  ∃ res2 w2 printed,
    filter_index_implied_dividend_yield_io is_session fuel df
      start_date end_date w1 = (Returns res2, w2) ∧
    res2 ≠ res1 ∧
    objects w2 !! res2 = objects w1 !! res1 ∧
    objects w2 !! res1 = objects w1 !! res1 ∧
    is_Some (objects w1 !! res1) ∧
    objects w2 !! df = Some rows ∧
    stdout w1 = stdout w ++ printed ∧
    stdout w2 = stdout w1 ++ printed.
Proof.
  intros Hdf Hrun.
  destruct (world_run_Returns _ _ _ _ _ _ _ Hrun) as (canon & printed & Hgen).
  rewrite (world_run _ _ _ _ _ _ _ Hgen) in Hrun.
  injection Hrun as <- <-.
  assert (contents (objects w) df = rows) as Hc
    by (unfold contents; by rewrite Hdf).
  rewrite Hc.
  set (w1 := mkWorld (stdout w ++ printed)
               (objects w ++ [replace_column canon rows;
                  isin_column canon (replace_column canon rows);
                  reconcile_with canon rows])).
  assert (objects w1 !! df = Some rows) as Hdf1.
  { unfold w1. cbn [objects]. by apply lookup_app_l_Some. }
  assert (contents (objects w1) df = rows) as Hc1
    by (unfold contents; by rewrite Hdf1).
  assert (length (objects w1) = (length (objects w) + 3)%nat) as Hlen.
  { unfold w1. cbn [objects]. rewrite length_app. done. }
  assert (objects w1 !! S (S (length (objects w)))
          = Some (reconcile_with canon rows)) as Hres1.
  { unfold w1. cbn [objects]. rewrite lookup_app_r by lia.
    replace (S (S (length (objects w))) - length (objects w))%nat
      with 2%nat by lia. done. }
  eexists _, _, printed. split; [apply (world_run _ _ _ _ _ _ _ Hgen)|].
  rewrite Hc1. cbn [objects stdout].
  split; [lia|]. rewrite Hres1.
  split.
  { rewrite lookup_app_r by lia.
    replace (S (S (length (objects w1))) - length (objects w1))%nat
      with 2%nat by lia. done. }
  split; [by apply lookup_app_l_Some|].
  split; [done|].
  split; [by apply lookup_app_l_Some|done].
Qed.
End ReconcilerEffects.

(** ** The range that starts on Good Friday 2008 *)

Lemma good_friday_start_out_of_fuel fuel :
  get_expiration_dates sample_session fuel start_2008 end_2008 [3; 6; 9; 12]
    = OutOfFuel.
Proof.
  apply (get_expiration_dates_short _ _ _ _ _ (ymd 2008 3 21)).
  - rewrite expiration_target_dates_2008. left.
  - intros x H1 [_ H2]. by apply good_friday_2008_closed.
Qed.

(** C4.  A range that starts on Good Friday 2008, the third Friday of
    March.  The day is in the range and in a month asked for, and the
    day before it is a session; the generator does not return it: it
    never returns a list, with or without the range of Timestamp.  With
    the range started a day earlier it returns the Thursday. *)
Theorem good_friday_start_never_returns :
  ymd 2008 3 21 ∈ expiration_target_dates start_2008 end_2008 [3; 6; 9; 12] ∧
  sample_session (ymd 2008 3 20) = true ∧
  (∀ fuel canon,
     get_expiration_dates sample_session fuel start_2008 end_2008
       [3; 6; 9; 12] ≠ Returns canon) ∧
  (∀ fuel canon,
     (get_expiration_dates_io sample_session fuel start_2008 end_2008
        [3; 6; 9; 12]).1 ≠ Returns canon) ∧
  get_expiration_dates sample_session 2 (ymd 2008 3 20) end_2008
    [3; 6; 9; 12]
    = Returns [ymd 2008 3 20; ymd 2008 6 20; ymd 2008 9 19; ymd 2008 12 19].
Proof.
  assert (∀ fuel canon,
     get_expiration_dates sample_session fuel start_2008 end_2008
       [3; 6; 9; 12] ≠ Returns canon) as Hnever.
  { intros fuel canon. by rewrite good_friday_start_out_of_fuel. }
  split; [rewrite expiration_target_dates_2008; left|].
  split; [by vm_compute|]. split; [exact Hnever|]. split; [|by vm_compute].
  intros fuel canon. by apply get_expiration_dates_io_never_Returns.
Qed.


Example days_to_timestamp_min :
  timestamp_min = -106751 ∧ ymd 2008 3 21 - timestamp_min = 120710 ∧
  civil_from_days timestamp_min = (1677, 9, 22).
Proof. by vm_compute. Qed.

Example shift_back_io_prints :
  get_expiration_dates_io sample_session 5 (ymd 2008 1 1) end_2008
    [3; 6; 9; 12]
  = (Returns [ymd 2008 3 20; ymd 2008 6 20; ymd 2008 9 19; ymd 2008 12 19],
     [ymd 2008 3 21]).
Proof. by vm_compute. Qed.

(** Two calls in a row on a table of 2008: each prints the line of Good
    Friday, and the second result has the rows of the first. *)
Lemma reconcile_deterministic_witness :
  ∃ res1 w1 res2 w2,
    filter_index_implied_dividend_yield_io sample_session 5 0
      (ymd 2008 1 1) end_2008
      (mkWorld []
         [[ mkRow (ymd 2008 3 3) (ymd 2008 3 21) "a";
            mkRow (ymd 2008 3 3) (ymd 2008 6 20) "b" ]])
    = (Returns res1, w1) ∧
    filter_index_implied_dividend_yield_io sample_session 5 0
      (ymd 2008 1 1) end_2008 w1 = (Returns res2, w2) ∧
    res2 ≠ res1 ∧
    objects w1 !! res1
    = Some [ mkRow (ymd 2008 3 3) (ymd 2008 3 20) "a";
             mkRow (ymd 2008 3 3) (ymd 2008 6 20) "b" ] ∧
    objects w2 !! res2 = objects w1 !! res1 ∧
    stdout w1 = [ymd 2008 3 21] ∧
    stdout w2 = [ymd 2008 3 21; ymd 2008 3 21].
Proof.
  set (w0 := mkWorld []
         [[ mkRow (ymd 2008 3 3) (ymd 2008 3 21) "a";
            mkRow (ymd 2008 3 3) (ymd 2008 6 20) "b" ]]).
  let r := eval vm_compute in
    (filter_index_implied_dividend_yield_io sample_session 5 0
       (ymd 2008 1 1) end_2008 w0) in
  assert (filter_index_implied_dividend_yield_io sample_session 5 0
            (ymd 2008 1 1) end_2008 w0 = r) as H1
    by (vm_compute; reflexivity).
  destruct (reconcile_deterministic sample_session 5 0%nat (ymd 2008 1 1)
              end_2008 w0 _ _ _ eq_refl H1)
    as (res2 & w2 & printed & H2 & Hne & Heq & _ & _ & _ & Hp1 & Hp2).
  eexists _, _, res2, w2.
  split; [exact H1|]. split; [exact H2|]. split; [exact Hne|].
  split; [vm_compute; reflexivity|]. split; [exact Heq|].
  split; [vm_compute; reflexivity|].
  rewrite Hp2. cbn in Hp1. rewrite <-Hp1. vm_compute. reflexivity.
Defined.
